(** * serverless-registry-proxy: a shallow embedding of [main.go]

    The proxy fronts a container registry behind a custom domain.  This
    development embeds the request director of the registry proxy
    ([rewriteRegistryV2URL]), its round tripper ([RoundTrip] with
    [updateTokenEndpoint]), the token proxy director of
    [tokenProxyHandler], token endpoint discovery
    ([discoverTokenService], and the start-up sequence of [main]), and the
    metadata-server authenticator ([updateToken]).

    Go strings are byte strings: they are modelled by [string], whose
    characters are the 256 values of [ascii].  The two maps of the
    program, [http.Header] and [url.Values], are finite maps from keys to
    lists of values.  The parts of the Go library that the program calls
    are modelled first, package by package: [strings], [regexp] (the two
    expressions of the program and replacement templates), [net/url]
    (query strings), [net/http] (header keys), [encoding/base64] and
    [time] (64-bit durations).  Three things stay parameters: the Unicode
    classification of non-ASCII runes in a replacement template,
    [url.Parse], and the transport that reaches the registry.  Logging is
    left out. *)

From Stdlib Require Import ZArith Ascii String List Lia.
From stdpp Require Import base option list gmap strings sorting.

Local Open Scope string_scope.
Local Open Scope Z_scope.

#[local] Arguments String.append !s1 s2 : simpl nomatch.

(** ** Characters used by the program *)

Definition dquote : ascii := "034"%char.
Definition LF : ascii := "010"%char.
Definition dollar : ascii := "$"%char.

(** The text [s] between two quote characters, as [fmt.Sprintf] writes
    a string verb that stands between two literal quotes. *)
Definition quoted (s : string) : string :=
  String dquote (s +:+ String dquote "").

(** ** Package [strings] *)

Module Strings.

(** [strings.CutPrefix s prefix]: the rest of [s] after [prefix]. *)
Fixpoint CutPrefix (s prefix : string) {struct prefix} : option string :=
  match prefix with
  | EmptyString => Some s
  | String p prefix' =>
      match s with
      | EmptyString => None
      | String c s' => if Ascii.eqb c p then CutPrefix s' prefix' else None
      end
  end.

Definition HasPrefix (s prefix : string) : bool :=
  match CutPrefix s prefix with Some _ => true | None => false end.

(** [strings.Cut s sep]: the text before and after the first (leftmost)
    occurrence of [sep] in [s]. *)
Fixpoint Cut (s sep : string) : option (string * string) :=
  match CutPrefix s sep with
  | Some after => Some (EmptyString, after)
  | None =>
      match s with
      | EmptyString => None
      | String c s' =>
          match Cut s' sep with
          | Some (before, after) => Some (String c before, after)
          | None => None
          end
      end
  end.

Definition Contains (s substr : string) : bool :=
  match Cut s substr with Some _ => true | None => false end.

(** [strings.Replace s old new n] for a count [n >= 0] and a non-empty
    [old]: the first [n] non-overlapping occurrences of [old], from the
    left, become [new].  The program calls it with the literal
    [old = repository:] and [n = 1]. *)
Fixpoint Replace (s old new : string) (n : nat) : string :=
  match n with
  | O => s
  | S n' =>
      match Cut s old with
      | None => s
      | Some (before, after) => before +:+ new +:+ Replace after old new n'
      end
  end.

(** Slices [s[:n]] and [s[n:]], clamped to the length of [s]. *)
Fixpoint take (n : nat) (s : string) : string :=
  match n, s with
  | S n', String c s' => String c (take n' s')
  | _, _ => EmptyString
  end.

Fixpoint drop (n : nat) (s : string) : string :=
  match n, s with
  | S n', String _ s' => drop n' s'
  | _, _ => s
  end.

(** Whether the byte [c] occurs in [s] ([strings.IndexByte] found it). *)
Fixpoint has_byte (c : ascii) (s : string) : bool :=
  match s with
  | EmptyString => false
  | String d s' => Ascii.eqb d c || has_byte c s'
  end.

End Strings.

(** ** Package [regexp]

    The program compiles two expressions, [re] (the text [/v2/] anchored
    at the beginning of the input) and [realm] (the literal [realm=], a
    quote, a lazy capture of any bytes but line feed, a quote), and calls
    [ReplaceAllString] on both and [FindStringSubmatch] on [realm].
    Matching is leftmost-first.  Every literal byte of the two expressions
    is ASCII and the dot excludes only the line feed, so matching by rune
    and matching by byte agree and the model matches bytes. *)

Module Regexp.

Section Template.

(** [Expand] reads names in a replacement template by rune and keeps
    Unicode letters and digits.  For a string that begins with a byte of
    a multi-byte sequence, [unicode_name_rune] is the width in bytes of
    the leading rune when it is a letter or a digit and [0] otherwise:
    the Unicode tables stay outside the development. *)
Variable unicode_name_rune : string -> nat.

Definition byte (c : ascii) : Z := Z.of_N (N_of_ascii c).

Definition is_digit (c : ascii) : bool :=
  (48 <=? byte c) && (byte c <=? 57).

Definition is_ascii_name (c : ascii) : bool :=
  is_digit c
  || ((65 <=? byte c) && (byte c <=? 90))
  || ((97 <=? byte c) && (byte c <=? 122))
  || Ascii.eqb c "_".

(** Width of the leading rune of [str] when it may stand in a name. *)
Definition name_rune (str : string) : nat :=
  match str with
  | EmptyString => O
  | String c _ =>
      if byte c <? 128 then (if is_ascii_name c then 1%nat else O)
      else unicode_name_rune str
  end.

(** The loop of [extract] that advances [i] over the name. *)
Fixpoint name_len (fuel : nat) (str : string) : nat :=
  match fuel with
  | O => O
  | S fuel' =>
      match name_rune str with
      | O => O
      | w => (w + name_len fuel' (Strings.drop w str))%nat
      end
  end.

(** The number a name spells, [-1] when it is not a number. *)
Fixpoint parse_num (name : string) (num : Z) : Z :=
  match name with
  | EmptyString => num
  | String c name' =>
      if negb (is_digit c) || (100000000 <=? num) then -1
      else parse_num name' (num * 10 + (byte c - 48))
  end.

(** [extract str]: the name, its number and the rest of the template
    after a dollar sign; [None] is Go's [ok = false]. *)
Definition extract (str : string) : option (string * Z * string) :=
  match str with
  | EmptyString => None
  | String c0 str0 =>
      let brace := Ascii.eqb c0 "{" in
      let str1 := if brace then str0 else str in
      let i := name_len (String.length str1) str1 in
      match i with
      | O => None
      | S _ =>
          let name := Strings.take i str1 in
          if brace && negb (bool_decide (String.get i str1 = Some "}"%char))
          then None
          else
            let i' := if brace then S i else i in
            let num := parse_num name 0 in
            let num :=
              if Strings.HasPrefix name "0" && (1 <? String.length name)%nat
              then -1 else num in
            Some (name, num, Strings.drop i' str1)
      end
  end.

(** The text of capture group [num]; neither expression names a group,
    so a name that is not a number expands to nothing. *)
Definition group (groups : list string) (num : Z) : string :=
  if 0 <=? num then default EmptyString (groups !! Z.to_nat num)
  else EmptyString.

(** [Regexp.expand]: one turn of the loop per dollar sign. *)
Fixpoint expand (fuel : nat) (template : string) (groups : list string)
  : string :=
  match fuel with
  | O => template
  | S fuel' =>
      match Strings.Cut template "$" with
      | None => template
      | Some (before, after) =>
          before +:+
          match Strings.CutPrefix after "$" with
          | Some after' => "$" +:+ expand fuel' after' groups
          | None =>
              match extract after with
              | None => "$" +:+ expand fuel' after groups
              | Some (name, num, rest) =>
                  group groups num +:+ expand fuel' rest groups
              end
          end
      end
  end.

Definition Expand (template : string) (groups : list string) : string :=
  expand (S (String.length template)) template groups.

(** *** [re], the anchored prefix [/v2/]

    The anchor matches at offset [0] only, so there is at most one match
    and it is the prefix; the text after it is copied. *)
Definition re_ReplaceAllString (src repl : string) : string :=
  match Strings.CutPrefix src "/v2/" with
  | Some rest => Expand repl ["/v2/"] +:+ rest
  | None => src
  end.

(** *** [realm]: the literal [realm=], a quote, a lazy capture, a quote *)

Definition realm_open : string := "realm=" +:+ String dquote "".

(** The lazy capture and the closing quote, tried at the head of [s]:
    the capture ends at the first quote and holds no line feed. *)
Fixpoint realm_capture (s : string) : option (string * string) :=
  match s with
  | EmptyString => None
  | String c s' =>
      if Ascii.eqb c dquote then Some (EmptyString, s')
      else if Ascii.eqb c LF then None
      else
        match realm_capture s' with
        | Some (cap, rest) => Some (String c cap, rest)
        | None => None
        end
  end.

(** A match of [realm] that starts at the head of [s]: the capture and
    the text after the match. *)
Definition realm_match (s : string) : option (string * string) :=
  match Strings.CutPrefix s realm_open with
  | Some t => realm_capture t
  | None => None
  end.

(** The leftmost match of [realm] in [s]: text before, capture, text
    after. *)
Fixpoint realm_find (s : string) : option (string * string * string) :=
  match realm_match s with
  | Some (cap, rest) => Some (EmptyString, cap, rest)
  | None =>
      match s with
      | EmptyString => None
      | String c s' =>
          match realm_find s' with
          | Some (pre, cap, rest) => Some (String c pre, cap, rest)
          | None => None
          end
      end
  end.

(** The text of a match with capture [cap] (group 0). *)
Definition realm_text (cap : string) : string := "realm=" +:+ quoted cap.

(** [realm.FindStringSubmatch]: empty when nothing matches, else the
    match and its capture. *)
Definition realm_FindStringSubmatch (s : string) : list string :=
  match realm_find s with
  | Some (_, cap, _) => [realm_text cap; cap]
  | None => []
  end.

(** [realm.ReplaceAllString]: the loop of [replaceAll]; a match is never
    empty, so the search resumes where the match ended. *)
Fixpoint realm_replaceAll (fuel : nat) (src repl : string) : string :=
  match fuel with
  | O => src
  | S fuel' =>
      match realm_find src with
      | None => src
      | Some (pre, cap, rest) =>
          pre +:+ Expand repl [realm_text cap; cap]
              +:+ realm_replaceAll fuel' rest repl
      end
  end.

Definition realm_ReplaceAllString (src repl : string) : string :=
  realm_replaceAll (String.length src) src repl.

End Template.

End Regexp.

(** ** Package [net/url] *)

Module Url.

(** The fields of [url.URL] that the program reads or writes, and those
    that identify the target of a request. *)
Record URL := mkURL {
  Scheme : string;
  Opaque : string;
  User : option string;
  Host : string;
  Path : string;
  RawPath : string;
  ForceQuery : bool;
  RawQuery : string;
  Fragment : string
}.

Definition set_Scheme (s : string) (u : URL) : URL :=
  mkURL s (Opaque u) (User u) (Host u) (Path u) (RawPath u)
        (ForceQuery u) (RawQuery u) (Fragment u).

Definition set_Host (h : string) (u : URL) : URL :=
  mkURL (Scheme u) (Opaque u) (User u) h (Path u) (RawPath u)
        (ForceQuery u) (RawQuery u) (Fragment u).

Definition set_Path (p : string) (u : URL) : URL :=
  mkURL (Scheme u) (Opaque u) (User u) (Host u) p (RawPath u)
        (ForceQuery u) (RawQuery u) (Fragment u).

Definition set_RawQuery (q : string) (u : URL) : URL :=
  mkURL (Scheme u) (Opaque u) (User u) (Host u) (Path u) (RawPath u)
        (ForceQuery u) q (Fragment u).

(** [url.Values]: a map from a key to the list of its values. *)
Abbreviation Values := (gmap string (list string)).

Definition Get (v : Values) (key : string) : string :=
  match v !! key with
  | Some (x :: _) => x
  | _ => EmptyString
  end.

Definition Set_ (v : Values) (key value : string) : Values :=
  <[key := [value]]> v.

Definition Add (v : Values) (key value : string) : Values :=
  <[key := (default [] (v !! key) ++ [value])%list]> v.

(** Hexadecimal digits. *)
Definition ishex (c : ascii) : bool :=
  Regexp.is_digit c
  || ((97 <=? Regexp.byte c) && (Regexp.byte c <=? 102))
  || ((65 <=? Regexp.byte c) && (Regexp.byte c <=? 70)).

Definition unhex (c : ascii) : Z :=
  let b := Regexp.byte c in
  if Regexp.is_digit c then b - 48
  else if (97 <=? b) && (b <=? 102) then b - 97 + 10
  else if (65 <=? b) && (b <=? 70) then b - 65 + 10
  else 0.

Definition of_byte (b : Z) : ascii := ascii_of_N (Z.to_N b).

Definition upperhex (n : Z) : ascii :=
  default "0"%char (String.get (Z.to_nat n) "0123456789ABCDEF").

(** [url.QueryUnescape]: [None] is an escape error. *)
Fixpoint QueryUnescape (s : string) : option string :=
  match s with
  | EmptyString => Some EmptyString
  | String c s' =>
      if Ascii.eqb c "%" then
        match s' with
        | String a (String b s'') =>
            if ishex a && ishex b then
              match QueryUnescape s'' with
              | Some t =>
                  Some (String (of_byte (Z.lor (Z.shiftl (unhex a) 4)
                                               (unhex b))) t)
              | None => None
              end
            else None
        | _ => None
        end
      else
        match QueryUnescape s' with
        | Some t => Some (String (if Ascii.eqb c "+" then " "%char else c) t)
        | None => None
        end
  end.

(** [shouldEscape] in the mode of a query component: every byte but
    letters, digits and the four marks. *)
Definition shouldEscape (c : ascii) : bool :=
  negb (Regexp.is_digit c
        || ((65 <=? Regexp.byte c) && (Regexp.byte c <=? 90))
        || ((97 <=? Regexp.byte c) && (Regexp.byte c <=? 122))
        || Ascii.eqb c "-" || Ascii.eqb c "_"
        || Ascii.eqb c "." || Ascii.eqb c "~").

(** [url.QueryEscape]. *)
Fixpoint QueryEscape (s : string) : string :=
  match s with
  | EmptyString => EmptyString
  | String c s' =>
      if Ascii.eqb c " " then String "+" (QueryEscape s')
      else if shouldEscape c then
        String "%" (String (upperhex (Z.shiftr (Regexp.byte c) 4))
                   (String (upperhex (Z.land (Regexp.byte c) 15))
                           (QueryEscape s')))
      else String c (QueryEscape s')
  end.

(** The pieces of [s] between the separators [sep]. *)
Fixpoint split (sep : ascii) (s : string) : list string :=
  match s with
  | EmptyString => [EmptyString]
  | String c s' =>
      if Ascii.eqb c sep then EmptyString :: split sep s'
      else
        match split sep s' with
        | piece :: rest => String c piece :: rest
        | [] => [String c EmptyString]
        end
  end.

(** One turn of the loop of [parseQuery] on the piece [key], as of Go
    1.17, where a semicolon no longer separates pairs: a piece with a
    semicolon, an empty piece and a piece with a bad escape add nothing
    (the error is recorded and the loop goes on). *)
Definition parsePair (m : Values) (key : string) : Values :=
  if Strings.Contains key ";" then m
  else if String.eqb key EmptyString then m
  else
    let kv := match Strings.Cut key "=" with
              | Some kv => kv
              | None => (key, EmptyString)
              end in
    match QueryUnescape (fst kv), QueryUnescape (snd kv) with
    | Some k, Some v => Add m k v
    | _, _ => m
    end.

(** [url.ParseQuery], the values only: [URL.Query] drops the error. *)
Definition ParseQuery (query : string) : Values :=
  fold_left parsePair (split "&" query) ∅.

Definition Query (u : URL) : Values := ParseQuery (RawQuery u).

(** [Values.Encode]: keys in byte order, every value of a key in turn. *)
Definition key_le (a b : string * list string) : Prop :=
  String.le (fst a) (fst b).

#[global] Instance key_le_dec : RelDecision key_le.
Proof. intros a b. unfold key_le. apply _. Defined.

Definition encodeKey (kv : string * list string) : list string :=
  map (fun v => QueryEscape (fst kv) +:+ "=" +:+ QueryEscape v) (snd kv).

Fixpoint join (sep : string) (l : list string) : string :=
  match l with
  | [] => EmptyString
  | [x] => x
  | x :: l' => x +:+ sep +:+ join sep l'
  end.

Definition Encode (v : Values) : string :=
  join "&" (flat_map encodeKey (merge_sort key_le (map_to_list v))).

End Url.

(** ** Package [net/http] *)

Module Http.

(** [http.Header]: a map from a canonical key to the list of values. *)
Abbreviation Header := (gmap string (list string)).

(** [validHeaderFieldByte]: the bytes of a token. *)
Definition validHeaderFieldByte (c : ascii) : bool :=
  Regexp.is_digit c
  || ((65 <=? Regexp.byte c) && (Regexp.byte c <=? 90))
  || ((97 <=? Regexp.byte c) && (Regexp.byte c <=? 122))
  || Strings.has_byte c "!#$%&'*+-.^_`|~".

Definition toUpper (c : ascii) : ascii :=
  if (97 <=? Regexp.byte c) && (Regexp.byte c <=? 122)
  then Url.of_byte (Regexp.byte c - 32) else c.

Definition toLower (c : ascii) : ascii :=
  if (65 <=? Regexp.byte c) && (Regexp.byte c <=? 90)
  then Url.of_byte (Regexp.byte c + 32) else c.

Fixpoint all_bytes (p : ascii -> bool) (s : string) : bool :=
  match s with
  | EmptyString => true
  | String c s' => p c && all_bytes p s'
  end.

(** The loop that upper-cases the first letter and every letter after a
    hyphen, and lower-cases the rest. *)
Fixpoint canon (upper : bool) (s : string) : string :=
  match s with
  | EmptyString => EmptyString
  | String c s' =>
      let c' := if upper then toUpper c else toLower c in
      String c' (canon (Ascii.eqb c' "-") s')
  end.

(** [textproto.CanonicalMIMEHeaderKey]: a key that is not a token is
    returned as it is. *)
Definition CanonicalMIMEHeaderKey (s : string) : string :=
  if all_bytes validHeaderFieldByte s then canon true s else s.

Definition Get (h : Header) (key : string) : string :=
  match h !! CanonicalMIMEHeaderKey key with
  | Some (v :: _) => v
  | _ => EmptyString
  end.

Definition Set_ (h : Header) (key value : string) : Header :=
  <[CanonicalMIMEHeaderKey key := [value]]> h.

(** An incoming or outgoing [http.Request]; [ctxOriginalHost] is the
    value the context holds under [ctxKeyOriginalHost], if any. *)
Record Request := mkRequest {
  Method : string;
  URL : Url.URL;
  ReqHeader : Header;
  Host : string;
  RequestURI : string;
  ctxOriginalHost : option string
}.

Definition set_URL (u : Url.URL) (r : Request) : Request :=
  mkRequest (Method r) u (ReqHeader r) (Host r) (RequestURI r)
            (ctxOriginalHost r).

Definition set_ReqHeader (h : Header) (r : Request) : Request :=
  mkRequest (Method r) (URL r) h (Host r) (RequestURI r)
            (ctxOriginalHost r).

Definition set_Host (h : string) (r : Request) : Request :=
  mkRequest (Method r) (URL r) (ReqHeader r) h (RequestURI r)
            (ctxOriginalHost r).

Definition WithOriginalHost (h : string) (r : Request) : Request :=
  mkRequest (Method r) (URL r) (ReqHeader r) (Host r) (RequestURI r)
            (Some h).

Record Response := mkResponse {
  StatusCode : Z;
  RespHeader : Header;
  Body : string
}.

Definition set_RespHeader (h : Header) (r : Response) : Response :=
  mkResponse (StatusCode r) h (Body r).

End Http.

(** ** Packages [encoding/base64] and [time] *)

Module Base64.

Definition encodeStd : string :=
  "ABCDEFGHIJKLMNOPQRSTUVWXYZabcdefghijklmnopqrstuvwxyz0123456789+/".

Definition digit (n : Z) : ascii :=
  default "="%char (String.get (Z.to_nat (Z.land n 63)) encodeStd).

(** [base64.StdEncoding.EncodeToString]. *)
Fixpoint EncodeToString (src : string) : string :=
  match src with
  | EmptyString => EmptyString
  | String a EmptyString =>
      let v := Z.shiftl (Regexp.byte a) 16 in
      String (digit (Z.shiftr v 18)) (String (digit (Z.shiftr v 12)) "==")
  | String a (String b EmptyString) =>
      let v := Z.lor (Z.shiftl (Regexp.byte a) 16)
                     (Z.shiftl (Regexp.byte b) 8) in
      String (digit (Z.shiftr v 18)) (String (digit (Z.shiftr v 12))
        (String (digit (Z.shiftr v 6)) "="))
  | String a (String b (String c src')) =>
      let v := Z.lor (Z.lor (Z.shiftl (Regexp.byte a) 16)
                            (Z.shiftl (Regexp.byte b) 8))
                     (Regexp.byte c) in
      String (digit (Z.shiftr v 18)) (String (digit (Z.shiftr v 12))
        (String (digit (Z.shiftr v 6)) (String (digit v)
          (EncodeToString src'))))
  end.

End Base64.

Module Time.

(** [time.Duration] is a signed 64-bit count of nanoseconds; its
    arithmetic wraps around. *)
Definition wrap64 (z : Z) : Z :=
  (z + 2 ^ 63) mod 2 ^ 64 - 2 ^ 63.

Definition mul (a b : Z) : Z := wrap64 (a * b).
Definition sub (a b : Z) : Z := wrap64 (a - b).

Definition Nanosecond : Z := 1.
Definition Second : Z := 1000000000.
Definition Minute : Z := 60 * Second.

(** The conversion [time.Duration(n)] of an [int] (of 64 bits). *)
Definition Duration (n : Z) : Z := wrap64 n.

End Time.

(** ** The program: [main.go] *)

(** How a call ends: it returns, it returns a non-nil [error] (its
    text), the process exits through [log.Fatal], or it panics. *)
Inductive outcome (A : Type) : Type :=
| Ok (a : A)
| Err (err : string)
| Fatal (msg : string)
| Panic (msg : string).

Arguments Ok {A} a.
Arguments Err {A} err.
Arguments Fatal {A} msg.
Arguments Panic {A} msg.

Record registryConfig := mkConfig {
  host : string;
  repoPrefix : string
}.

Module Token.
(** The JSON object the metadata server answers with. *)
Record token := mkToken {
  AccessToken : string;
  ExpiresIn : Z;
  TokenType : string
}.
End Token.

(** [metadataServerAuth]: the token, its lifetime in seconds, and the
    timer [t], here the duration in nanoseconds it was armed with
    ([None] before [time.NewTimer] ran).  The lock guards whole reads and
    writes and has no state of its own in a sequential model. *)
Record metadataServerAuth := mkMeta {
  authToken : string;
  ExpiresIn : Z;
  t : option Z
}.

Definition metadataServerAuth_zero : metadataServerAuth :=
  mkMeta EmptyString 0 None.

(** The two implementations of the interface [authenticator]: a fixed
    header, and a pointer to the one [metadataServerAuth] object of the
    process, whose fields live in the store passed to [AuthHeader]. *)
Inductive authenticator : Type :=
| authHeader (b : string)
| metadataServer.

Definition AuthHeader (a : authenticator) (store : metadataServerAuth)
  : string :=
  match a with
  | authHeader b => b
  | metadataServer => authToken store
  end.

Record registryRoundtripper := mkRoundtripper {
  auth : option authenticator
}.

(** What the metadata server call of [getAuthToken] meets. *)
Inductive metadata_reply : Type :=
| DoFailed (err : string)
| ReadAllFailed (err : string)
| UnmarshalFailed (err body : string)
| Replied (tok : Token.token).

(** What the process meets outside: [os.Getenv], [http.Get], the
    metadata server at the first fetch, [ioutil.ReadFile]. *)
Record world := mkWorld {
  Getenv : string -> string;
  http_Get : string -> Http.Response + string;
  metadata : metadata_reply;
  ReadFile : string -> string + string
}.

(** The handlers and the address [main] listens with. *)
Record server := mkServer {
  addr : string;
  tls : option (string * string);
  browserRedirect : option registryConfig;
  tokenProxy : option (string * string);
  registryProxy : registryConfig * option authenticator;
  authStore : metadataServerAuth
}.

Definition nonempty (s : string) : bool := negb (String.eqb s EmptyString).

Section Program.

Variable unicode_name_rune : string -> nat.

(** [url.Parse], [None] when it returns an error (and a nil URL). *)
Variable url_Parse : string -> option Url.URL.

(** [http.DefaultTransport.RoundTrip]: the upstream's response or the
    transport's error. *)
Variable DefaultTransport : Http.Request -> Http.Response + string.

(** [captureHostHeader]: the request the next handler is served. *)
Definition captureHostHeader (req : Http.Request) : Http.Request :=
  Http.WithOriginalHost (Http.Host req) req.

(** [discoverTokenService], given what [http.Get] returned. *)
Definition discoverTokenService (registryHost : string)
    (get : string -> Http.Response + string) : outcome string :=
  let url := "https://" +:+ registryHost +:+ "/v2/" in
  match get url with
  | inr err =>
      Err ("failed to query the registry host " +:+ registryHost
           +:+ ": " +:+ err)
  | inl resp =>
      let hdr := Http.Get (Http.RespHeader resp) "www-authenticate" in
      if String.eqb hdr EmptyString then
        Err ("www-authenticate header not returned from " +:+ url
             +:+ ", cannot locate token endpoint")
      else
        match Regexp.realm_FindStringSubmatch hdr with
        | [] =>
            Err ("cannot locate 'realm' in " +:+ url
                 +:+ " response header www-authenticate: " +:+ hdr)
        | [_] => Panic "index out of range"
        | _ :: m1 :: _ => Ok m1
        end
  end.

(** The director of [tokenProxyHandler]: the request after it ran. *)
Definition tokenProxyHandler (tokenEndpoint repoPrefix : string)
    (r : Http.Request) : outcome Http.Request :=
  let q := Url.Query (Http.URL r) in
  let scope := Url.Get q "scope" in
  if String.eqb scope EmptyString then Ok r
  else
    let newScope :=
      Strings.Replace scope "repository:"
                      ("repository:" +:+ repoPrefix +:+ "/") 1 in
    let q := Url.Set_ q "scope" newScope in
    match url_Parse tokenEndpoint with
    | None => Panic "nil pointer dereference"
    | Some u =>
        let u := Url.set_RawQuery (Url.Encode q) u in
        Ok (Http.set_Host (Url.Host u) (Http.set_URL u r))
    end.

(** [browserRedirectHandler]: the status and the [Location]. *)
Definition browserRedirectHandler (cfg : registryConfig)
    (r : Http.Request) : Z * string :=
  (307, "https://" +:+ host cfg +:+ "/" +:+ repoPrefix cfg
        +:+ Http.RequestURI r).

(** [rewriteRegistryV2URL]: the director of the registry proxy. *)
Definition rewriteRegistryV2URL (c : registryConfig) (req : Http.Request)
  : Http.Request :=
  let req := Http.set_Host (host c) req in
  let u := Url.set_Host (host c) (Url.set_Scheme "https" (Http.URL req)) in
  let u :=
    if negb (String.eqb (Url.Path u) "/v2/")
    then Url.set_Path
           (Regexp.re_ReplaceAllString unicode_name_rune (Url.Path u)
              ("/v2/" +:+ repoPrefix c +:+ "/")) u
    else u in
  Http.set_URL u req.

(** [updateTokenEndpoint]: the response after the call. *)
Definition updateTokenEndpoint (resp : Http.Response) (host : string)
  : Http.Response :=
  let v := Http.Get (Http.RespHeader resp) "www-authenticate" in
  if String.eqb v EmptyString then resp
  else
    let cur := "https://" +:+ host +:+ "/_token" in
    Http.set_RespHeader
      (Http.Set_ (Http.RespHeader resp) "www-authenticate"
         (Regexp.realm_ReplaceAllString unicode_name_rune v
            ("realm=" +:+ quoted cur)))
      resp.

(** The request [RoundTrip] hands to the transport: [Authorization]
    from the authenticator if there is one, the decorated [User-Agent]
    if the request had a non-empty one, and [Accept]. *)
Definition outbound (rrt : registryRoundtripper)
    (store : metadataServerAuth) (origHost : string) (req : Http.Request)
  : Http.Request :=
  let h := Http.ReqHeader req in
  let h :=
    match auth rrt with
    | Some a => Http.Set_ h "Authorization" (AuthHeader a store)
    | None => h
    end in
  let ua := Http.Get h "user-agent" in
  let h :=
    if nonempty ua
    then Http.Set_ h "user-agent"
           ("gcr-proxy/0.1 customDomain/" +:+ origHost +:+ " " +:+ ua)
    else h in
  let h := Http.Set_ h "accept" "*/*" in
  Http.set_ReqHeader h req.

(** [registryRoundtripper.RoundTrip].  The type assertion on the context
    value panics when the middleware did not run; nothing is forwarded
    then, so the header set before it is not seen. *)
Definition RoundTrip (rrt : registryRoundtripper)
    (store : metadataServerAuth) (req : Http.Request)
  : outcome Http.Response :=
  match Http.ctxOriginalHost req with
  | None => Panic "interface conversion: interface is nil, not string"
  | Some origHost =>
      match DefaultTransport (outbound rrt store origHost req) with
      | inl resp => Ok (updateTokenEndpoint resp origHost)
      | inr err => Err err
      end
  end.

(** [getAuthToken host], given the reply of the metadata server.  The
    URL is built from the literal host [metadata], so [http.NewRequest]
    does not fail; the status of the reply is not looked at. *)
Definition getAuthToken (host : string) (reply : metadata_reply)
  : outcome (string * Z) :=
  let url := "http://" +:+ host
             +:+ "/computeMetadata/v1/instance/service-accounts/default/token"
  in
  match reply with
  | DoFailed err => Err ("failed to query the host " +:+ url +:+ ": " +:+ err)
  | ReadAllFailed err => Fatal err
  | UnmarshalFailed err body => Fatal ("error: " +:+ err +:+ " data: " +:+ body)
  | Replied tok =>
      Ok (Token.TokenType tok +:+ " " +:+ Token.AccessToken tok,
          Token.ExpiresIn tok)
  end.

(** [metadataServerAuth.updateToken]: the object after the call. *)
Definition updateToken (m : metadataServerAuth) (reply : metadata_reply)
  : outcome metadataServerAuth :=
  match getAuthToken "metadata" reply with
  | Ok (tok, expiresIn) =>
      Ok (mkMeta tok expiresIn
            (Some (Time.sub (Time.mul (Time.Duration expiresIn) Time.Second)
                            (Time.mul 5 Time.Minute))))
  | Err err => Fatal ("could not get token from metadata server: " +:+ err)
  | Fatal msg => Fatal msg
  | Panic msg => Panic msg
  end.

(** [metadataServerAuth.Init]: the first fetch; the goroutine it starts
    waits for the timer and then runs [updateTokenTimer]. *)
Definition Init (m : metadataServerAuth) (reply : metadata_reply)
  : outcome metadataServerAuth :=
  updateToken m reply.

(** [updateTokenTimer]: every time the timer fires the token is fetched
    again; [replies] are the answers of the metadata server in turn. *)
Fixpoint updateTokenTimer (m : metadataServerAuth)
    (replies : list metadata_reply) : outcome metadataServerAuth :=
  match replies with
  | [] => Ok m
  | reply :: replies' =>
      match updateToken m reply with
      | Ok m' => updateTokenTimer m' replies'
      | Err err => Err err
      | Fatal msg => Fatal msg
      | Panic msg => Panic msg
      end
  end.

(** [getAuthData]: the authenticator and the state of the metadata
    object. *)
Definition getAuthData (w : world) (auth : option authenticator)
  : outcome (option authenticator * metadataServerAuth) :=
  if nonempty (Getenv w "USE_METADATA_SERVER") then
    match Init metadataServerAuth_zero (metadata w) with
    | Ok m => Ok (Some metadataServer, m)
    | Err err => Err err
    | Fatal msg => Fatal msg
    | Panic msg => Panic msg
    end
  else if nonempty (Getenv w "AUTH_HEADER") then
    Ok (Some (authHeader (Getenv w "AUTH_HEADER")), metadataServerAuth_zero)
  else if nonempty (Getenv w "GOOGLE_APPLICATION_CREDENTIALS") then
    let gcpKey := Getenv w "GOOGLE_APPLICATION_CREDENTIALS" in
    match ReadFile w gcpKey with
    | inr err =>
        Fatal ("could not read key file from " +:+ gcpKey +:+ ": " +:+ err)
    | inl b =>
        Ok (Some (authHeader
                    ("Basic " +:+ Base64.EncodeToString ("_json_key:" +:+ b))),
            metadataServerAuth_zero)
    end
  else Ok (auth, metadataServerAuth_zero).

(** [main] up to the call that listens: [Ok] is the server it starts,
    [Fatal] a start-up that exits before listening. *)
Definition main (w : world) : outcome server :=
  let port := Getenv w "PORT" in
  if negb (nonempty port) then
    Fatal "PORT environment variable not specified"
  else
    let browserRedirects :=
      negb (nonempty (Getenv w "DISABLE_BROWSER_REDIRECTS")) in
    let registryHost := Getenv w "REGISTRY_HOST" in
    if negb (nonempty registryHost) then
      Fatal "REGISTRY_HOST environment variable not specified (example: gcr.io)"
    else
      let repoPrefix := Getenv w "REPO_PREFIX" in
      if negb (nonempty repoPrefix) then
        Fatal "REPO_PREFIX environment variable not specified"
      else
        let reg := mkConfig registryHost repoPrefix in
        match discoverTokenService (host reg) (http_Get w) with
        | Err err =>
            Fatal ("target registry's token endpoint could not be discovered: "
                   +:+ err)
        | Fatal msg => Fatal msg
        | Panic msg => Panic msg
        | Ok tokenEndpoint =>
            match getAuthData w None with
            | Err err => Err err
            | Fatal msg => Fatal msg
            | Panic msg => Panic msg
            | Ok (auth, store) =>
                let cert := Getenv w "TLS_CERT" in
                let key := Getenv w "TLS_KEY" in
                Ok (mkServer
                      (":" +:+ port)
                      (if nonempty cert && nonempty key
                       then Some (cert, key) else None)
                      (if browserRedirects then Some reg else None)
                      (if nonempty tokenEndpoint
                       then Some (tokenEndpoint, repoPrefix) else None)
                      (reg, auth)
                      store)
            end
        end.

End Program.

(** ** The registry handler as the server runs it *)

Section Handlers.

Variable unicode_name_rune : string -> nat.
Variable DefaultTransport : Http.Request -> Http.Response + string.

(** Between the director and the transport [httputil.ReverseProxy]
    edits the header of the outgoing request (it removes the hop-by-hop
    headers and adds [X-Forwarded-For]); [proxy_header] is the header it
    leaves.  It keeps the URL, [Host] and the context of the request. *)
Variable proxy_header : Http.Request -> Http.Header.

(** [registryAPIProxy cfg auth]: the reverse proxy runs the director
    [rewriteRegistryV2URL cfg] on the request and hands the result to the
    round tripper; the outcome is what [RoundTrip] returns to it. *)
Definition registryAPIProxy (cfg : registryConfig)
    (auth : option authenticator) (store : metadataServerAuth)
    (req : Http.Request) : outcome Http.Response :=
  let outreq := rewriteRegistryV2URL unicode_name_rune cfg req in
  let outreq := Http.set_ReqHeader (proxy_header outreq) outreq in
  RoundTrip unicode_name_rune DefaultTransport (mkRoundtripper auth) store
            outreq.

(** The handler of [/v2/] behind the middleware, as [main] wires them:
    [captureHostHeader] then [registryAPIProxy]. *)
Definition serveRegistry (cfg : registryConfig)
    (auth : option authenticator) (store : metadataServerAuth)
    (req : Http.Request) : outcome Http.Response :=
  registryAPIProxy cfg auth store (captureHostHeader req).

End Handlers.

(** ** Instances used to run the model on concrete inputs *)

(** Templates made of ASCII bytes never consult the Unicode tables. *)
Definition ascii_names : string -> nat := fun _ => O.

(** A reader of URLs of the shape [scheme://host/path?query], for the
    examples below; the theorems hold for every [url_Parse]. *)
Definition parse_plain (s : string) : option Url.URL :=
  match Strings.Cut s "://" with
  | None => None
  | Some (scheme, rest) =>
      let hq := match Strings.Cut rest "?" with
                | Some hq => hq
                | None => (rest, EmptyString)
                end in
      let hp := match Strings.Cut (fst hq) "/" with
                | Some (h, p) => (h, String "/" p)
                | None => (fst hq, EmptyString)
                end in
      Some (Url.mkURL scheme EmptyString None (fst hp) (snd hp)
                      EmptyString false (snd hq) EmptyString)
  end.

(** A transport that answers every request with the response [resp]. *)
Definition always (resp : Http.Response)
  : Http.Request -> Http.Response + string :=
  fun _ => inl resp.

(** A request as the server reads it: the URL holds the path and the
    query only, the host is in [Host]. *)
Definition request (method host path query : string)
    (header : Http.Header) : Http.Request :=
  Http.mkRequest method
    (Url.mkURL EmptyString EmptyString None EmptyString path EmptyString
               false query EmptyString)
    header host
    (if nonempty query then path +:+ "?" +:+ query else path)
    None.

(** A [401] response whose only header is the challenge [challenge]. *)
Definition unauthorized (challenge : string) : Http.Response :=
  Http.mkResponse 401 {[ "Www-Authenticate" := [challenge] ]} EmptyString.

Definition gcr : registryConfig := mkConfig "gcr.io" "myorg".

(** The challenge of the specification's example. *)
Definition bearer_challenge : string :=
  "Bearer realm=" +:+ quoted "https://auth.example.com/token"
  +:+ ",service=" +:+ quoted "r".

(** A world in which the registry answers the probe with [resp]. *)
Definition probe_world (env : string -> string) (resp : Http.Response)
  : world :=
  mkWorld env (fun _ => inl resp) (DoFailed "no metadata server")
          (fun _ => inr "no such file").

Definition proxy_env (name : string) : string :=
  if String.eqb name "PORT" then "8080"
  else if String.eqb name "REGISTRY_HOST" then "gcr.io"
  else if String.eqb name "REPO_PREFIX" then "myorg"
  else if String.eqb name "AUTH_HEADER" then "Basic Zm9vOmJhcg=="
  else EmptyString.

(** ** Vocabulary of the statements *)

(** A string free of quotes and line feeds: what a lazy capture holds. *)
Definition clean (s : string) : Prop :=
  Strings.has_byte dquote s = false /\ Strings.has_byte LF s = false.

(** A match found in [s] after the prefix [a]. *)
Definition shift (a : string) (o : option (string * string * string))
  : option (string * string * string) :=
  match o with
  | Some (pre, cap, rest) => Some (a +:+ pre, cap, rest)
  | None => None
  end.


(** The text [s] holds a match of [realm] after [pre], with capture
    [cap]: the expression matches [realm=], a quote, any bytes but line
    feeds, a quote. *)
Definition realm_occurs (s pre cap rest : string) : Prop :=
  s = pre +:+ Regexp.realm_text cap +:+ rest
  /\ Strings.has_byte LF cap = false.

(** The first [realm] parameter of [s]: the leftmost match, with the
    shortest capture. *)
Definition first_realm (s pre cap rest : string) : Prop :=
  realm_occurs s pre cap rest
  /\ Strings.has_byte dquote cap = false
  /\ forall pre' cap' rest',
       realm_occurs s pre' cap' rest' ->
       (String.length pre <= String.length pre')%nat.

Definition no_realm (s : string) : Prop :=
  forall pre cap rest, ~ realm_occurs s pre cap rest.


(** The bytes of the standard base64 alphabet and the padding. *)
Definition base64_byte (c : ascii) : bool :=
  Regexp.is_digit c
  || ((65 <=? Regexp.byte c) && (Regexp.byte c <=? 90))
  || ((97 <=? Regexp.byte c) && (Regexp.byte c <=? 122))
  || Ascii.eqb c "+" || Ascii.eqb c "/" || Ascii.eqb c "=".

Definition CR : ascii := "013"%char.

(** The states of the metadata object after a fetch: the token, the
    lifetime and the timer all come from one reply. *)
Definition fetched (m : metadataServerAuth) : Prop :=
  exists tok,
    m = mkMeta (Token.TokenType tok +:+ " " +:+ Token.AccessToken tok)
               (Token.ExpiresIn tok)
               (Some (Time.wrap64 ((Token.ExpiresIn tok - 300) * 1000000000))).

Definition is_Err {A} (o : outcome A) : Prop :=
  match o with Err _ => True | _ => False end.

Definition is_Fatal {A} (o : outcome A) : Prop :=
  match o with Fatal _ => True | _ => False end.

(** * Tactics *)

(** Case analysis on the byte comparisons left in a hypothesis. *)
Ltac eqb_cases H :=
  repeat match type of H with
         | context [Ascii.eqb ?c ?d] =>
             destruct (Ascii.eqb_spec c d); [subst | discriminate H]
         end.


(** * The library models on known values *)

Example Expand_examples :
  Regexp.Expand ascii_names "/v2/myorg/" ["/v2/"] = "/v2/myorg/"
  /\ Regexp.Expand ascii_names "a$$b" ["/v2/"] = "a$b"
  /\ Regexp.Expand ascii_names "<${0}>" ["/v2/"] = "</v2/>"
  /\ Regexp.Expand ascii_names "<$0x>" ["/v2/"] = "<>"
  /\ Regexp.Expand ascii_names "<$1>$" ["/v2/"] = "<>$".
Proof. repeat split. Qed.

Example realm_FindStringSubmatch_example :
  Regexp.realm_FindStringSubmatch bearer_challenge
  = ["realm=" +:+ quoted "https://auth.example.com/token";
     "https://auth.example.com/token"].
Proof. reflexivity. Qed.

Example query_examples :
  Url.QueryEscape "repository:foo/bar:pull x" = "repository%3Afoo%2Fbar%3Apull+x"
  /\ Url.QueryUnescape "repository%3Afoo%2fbar%3Apull+x"
     = Some "repository:foo/bar:pull x"
  /\ Url.QueryUnescape "100%" = None
  /\ Url.ParseQuery "a=1&scope=x&a=2&;b=3&c"
     = {[ "a" := ["1"; "2"]; "scope" := ["x"]; "c" := [EmptyString] ]}
  /\ Url.Encode {[ "scope" := ["x y"]; "a" := ["1"; "2"] ]}
     = "a=1&a=2&scope=x+y".
Proof. repeat split; vm_compute; reflexivity. Qed.

Example header_key_examples :
  Http.CanonicalMIMEHeaderKey "www-authenticate" = "Www-Authenticate"
  /\ Http.CanonicalMIMEHeaderKey "user-agent" = "User-Agent"
  /\ Http.CanonicalMIMEHeaderKey "ACCEPT" = "Accept"
  /\ Http.CanonicalMIMEHeaderKey "x forwarded" = "x forwarded".
Proof. repeat split. Qed.

Example base64_examples :
  Base64.EncodeToString "Man" = "TWFu"
  /\ Base64.EncodeToString "Ma" = "TWE="
  /\ Base64.EncodeToString "M" = "TQ=="
  /\ Base64.EncodeToString "_json_key:{}" = "X2pzb25fa2V5Ont9".
Proof. repeat split. Qed.

Example duration_examples :
  Time.sub (Time.mul (Time.Duration 3600) Time.Second) (Time.mul 5 Time.Minute)
  = 3300 * Time.Second
  /\ Time.mul 9223372037 Time.Second = -9223372036709551616.
Proof. repeat split. Qed.

(** * Facts about strings *)

Section StringFacts.

Implicit Types s p r a b : string.

Lemma append_nil_r s : s +:+ EmptyString = s.
Proof. induction s as [|c s IH]; simpl; [reflexivity | now rewrite IH]. Qed.

Lemma append_assoc s p r : (s +:+ p) +:+ r = s +:+ (p +:+ r).
Proof. induction s as [|c s IH]; simpl; [reflexivity | now rewrite IH]. Qed.

Lemma length_append s p :
  String.length (s +:+ p) = (String.length s + String.length p)%nat.
Proof. induction s as [|c s IH]; simpl; [reflexivity | now rewrite IH]. Qed.

Lemma CutPrefix_app p s : Strings.CutPrefix (p +:+ s) p = Some s.
Proof.
  induction p as [|c p IH]; simpl; [reflexivity|].
  now rewrite Ascii.eqb_refl.
Qed.

Lemma CutPrefix_Some s p r : Strings.CutPrefix s p = Some r -> s = p +:+ r.
Proof.
  revert s; induction p as [|c p IH]; intros s H; simpl in *.
  - now inversion H.
  - destruct s as [|d s]; [discriminate|].
    destruct (Ascii.eqb_spec d c) as [->|]; [|discriminate].
    now rewrite (IH _ H).
Qed.

Lemma CutPrefix_None s p :
  Strings.CutPrefix s p = None -> forall r, s <> p +:+ r.
Proof.
  intros H r ->. now rewrite CutPrefix_app in H.
Qed.

Lemma Cut_Some s sep b a :
  Strings.Cut s sep = Some (b, a) -> s = b +:+ sep +:+ a.
Proof.
  revert b; induction s as [|c s IH]; intros b H.
  - simpl in H. destruct (Strings.CutPrefix EmptyString sep) eqn:E;
      [|discriminate].
    inversion H; subst. simpl. now apply CutPrefix_Some.
  - simpl in H. destruct (Strings.CutPrefix (String c s) sep) eqn:E.
    + inversion H; subst. simpl. now apply CutPrefix_Some.
    + destruct (Strings.Cut s sep) as [[b' a']|] eqn:E'; [|discriminate].
      inversion H; subst. simpl. now rewrite (IH _ eq_refl).
Qed.



Lemma has_byte_app c s p :
  Strings.has_byte c (s +:+ p) = Strings.has_byte c s || Strings.has_byte c p.
Proof.
  induction s as [|d s IH]; simpl; [reflexivity|].
  rewrite IH. now rewrite orb_assoc.
Qed.

(** A string without the byte [c] has no occurrence of the one-byte
    separator [c]. *)
Lemma Cut_byte_None c s :
  Strings.has_byte c s = false ->
  Strings.Cut s (String c EmptyString) = None.
Proof.
  induction s as [|d s IH]; intros H; [reflexivity|].
  simpl in H. apply orb_false_iff in H as [Hd Hs].
  simpl. rewrite Hd, (IH Hs). reflexivity.
Qed.

End StringFacts.

(** * Facts about the two regular expressions *)

Section RegexpFacts.

Variable U : string -> nat.

Implicit Types s pre cap rest repl : string.

(** A template without a dollar sign expands to itself. *)
Lemma Expand_no_dollar repl groups :
  Strings.has_byte dollar repl = false ->
  Regexp.Expand U repl groups = repl.
Proof.
  intros H. unfold Regexp.Expand. cbn [Regexp.expand].
  pose proof (Cut_byte_None dollar repl H) as E. unfold dollar in E.
  now rewrite E.
Qed.

Lemma drop_length n s : (String.length (Strings.drop n s) <= String.length s)%nat.
Proof.
  revert s; induction n as [|n IH]; intros [|c s]; simpl; try lia.
  specialize (IH s). lia.
Qed.

Lemma extract_length str name num rest :
  Regexp.extract U str = Some (name, num, rest) ->
  (String.length rest <= String.length str)%nat.
Proof.
  unfold Regexp.extract. destruct str as [|c0 str0]; [discriminate|].
  cbv zeta.
  destruct (Regexp.name_len U _ _); [discriminate|].
  destruct (_ && negb _); [discriminate|].
  intros H. inversion H; subst. clear H.
  destruct (Ascii.eqb c0 "{").
  - pose proof (drop_length (S (S n)) str0).
    change (String.length (String c0 str0)) with (S (String.length str0)). lia.
  - apply drop_length.
Qed.

(** The loop of [expand] never runs out of turns: any two budgets of
    at least the length of the template give the same text. *)
Lemma expand_fuel n m template groups :
  (String.length template <= n)%nat -> (String.length template <= m)%nat ->
  Regexp.expand U n template groups = Regexp.expand U m template groups.
Proof.
  revert m template; induction n as [|n IH]; intros m template Hn Hm.
  - destruct template; [|simpl in Hn; lia]. now destruct m.
  - destruct m as [|m].
    + destruct template; [reflexivity | simpl in Hm; lia].
    + cbn [Regexp.expand].
      destruct (Strings.Cut template "$") as [[before after]|] eqn:E;
        [|reflexivity].
      apply Cut_Some in E. subst template.
      rewrite !length_append in Hn, Hm. simpl String.length in Hn, Hm.
      f_equal.
      destruct (Strings.CutPrefix after "$") as [after'|] eqn:E1.
      * apply CutPrefix_Some in E1. subst after. simpl String.length in Hn, Hm.
        f_equal. apply IH; lia.
      * destruct (Regexp.extract U after) as [[[name num] rest]|] eqn:E2.
        -- apply extract_length in E2. f_equal. apply IH; lia.
        -- f_equal. apply IH; lia.
Qed.

Lemma re_ReplaceAllString_prefix rest repl :
  Strings.has_byte dollar repl = false ->
  Regexp.re_ReplaceAllString U ("/v2/" +:+ rest) repl = repl +:+ rest.
Proof.
  intros H. unfold Regexp.re_ReplaceAllString.
  rewrite CutPrefix_app. now rewrite Expand_no_dollar.
Qed.

Lemma realm_capture_Some s cap rest :
  Regexp.realm_capture s = Some (cap, rest) ->
  s = cap +:+ String dquote rest /\ clean cap.
Proof.
  revert cap; induction s as [|c s IH]; intros cap H; [discriminate|].
  simpl in H. destruct (Ascii.eqb_spec c dquote) as [->|Hq].
  - inversion H; subst. now split.
  - destruct (Ascii.eqb_spec c LF) as [->|Hl]; [discriminate|].
    destruct (Regexp.realm_capture s) as [[cap' rest']|]; [|discriminate].
    inversion H; subst. destruct (IH _ eq_refl) as [-> [Hc1 Hc2]].
    split; [reflexivity|]. split; simpl.
    + rewrite Hc1. now apply Ascii.eqb_neq in Hq as ->.
    + rewrite Hc2. now apply Ascii.eqb_neq in Hl as ->.
Qed.

Lemma realm_capture_clean cap rest :
  clean cap ->
  Regexp.realm_capture (cap +:+ String dquote rest) = Some (cap, rest).
Proof.
  intros [Hq Hl]. induction cap as [|c cap IH]; simpl.
  - reflexivity.
  - simpl in Hq, Hl.
    apply orb_false_iff in Hq as [Hq1 Hq2].
    apply orb_false_iff in Hl as [Hl1 Hl2].
    now rewrite Hq1, Hl1, (IH Hq2 Hl2).
Qed.

(** Text without a line feed, followed by a quote: the capture ends at
    some quote. *)
Lemma realm_capture_total s rest :
  Strings.has_byte LF s = false ->
  exists cap rest',
    Regexp.realm_capture (s +:+ String dquote rest) = Some (cap, rest').
Proof.
  intros Hl. induction s as [|c s IH]; simpl.
  - eauto.
  - simpl in Hl. apply orb_false_iff in Hl as [Hl1 Hl2].
    destruct (Ascii.eqb c dquote); [eauto|].
    rewrite Hl1. destruct (IH Hl2) as (cap & rest' & ->). eauto.
Qed.

(** A line feed met before any quote: no capture here. *)
Lemma realm_capture_LF s rest :
  Strings.has_byte dquote s = false ->
  Strings.has_byte LF s = true ->
  Regexp.realm_capture (s +:+ rest) = None.
Proof.
  intros Hq Hl. induction s as [|c s IH]; [discriminate|].
  simpl in *. apply orb_false_iff in Hq as [Hq1 Hq2]. rewrite Hq1.
  destruct (Ascii.eqb c LF); [reflexivity|].
  simpl in Hl. now rewrite (IH Hq2 Hl).
Qed.

Lemma realm_text_open cap rest :
  Regexp.realm_text cap +:+ rest
  = Regexp.realm_open +:+ cap +:+ String dquote rest.
Proof.
  unfold Regexp.realm_text, Regexp.realm_open, quoted. simpl.
  now rewrite append_assoc.
Qed.

Lemma realm_match_Some s cap rest :
  Regexp.realm_match s = Some (cap, rest) ->
  s = Regexp.realm_text cap +:+ rest /\ clean cap.
Proof.
  unfold Regexp.realm_match. intros H.
  destruct (Strings.CutPrefix s Regexp.realm_open) as [t0|] eqn:E;
    [|discriminate].
  apply CutPrefix_Some in E. apply realm_capture_Some in H as [-> Hc].
  split; [|exact Hc]. now rewrite realm_text_open.
Qed.

Lemma realm_match_text cap rest :
  clean cap ->
  Regexp.realm_match (Regexp.realm_text cap +:+ rest) = Some (cap, rest).
Proof.
  intros Hc. unfold Regexp.realm_match.
  rewrite realm_text_open, CutPrefix_app. now apply realm_capture_clean.
Qed.

(** Wherever the expression can match at the head at all (lazily or
    not), [realm_match] finds a match there. *)
Lemma realm_match_total cap rest :
  Strings.has_byte LF cap = false ->
  exists cap' rest',
    Regexp.realm_match (Regexp.realm_text cap +:+ rest) = Some (cap', rest').
Proof.
  intros Hl. unfold Regexp.realm_match.
  rewrite realm_text_open, CutPrefix_app. now apply realm_capture_total.
Qed.

(** [realm_find] returns a match of the expression ... *)
Lemma realm_find_Some s pre cap rest :
  Regexp.realm_find s = Some (pre, cap, rest) ->
  s = pre +:+ Regexp.realm_text cap +:+ rest /\ clean cap.
Proof.
  revert pre; induction s as [|c s IH]; intros pre H; simpl in H.
  - discriminate.
  - destruct (Regexp.realm_match (String c s)) as [[cap' rest']|] eqn:E.
    + inversion H; subst. now apply realm_match_Some.
    + destruct (Regexp.realm_find s) as [[[pre' cap'] rest']|];
        [|discriminate].
      inversion H; subst. destruct (IH _ eq_refl) as [-> Hc].
      now split.
Qed.

(** ... the leftmost one ... *)
Lemma realm_find_leftmost s pre cap rest :
  Regexp.realm_find s = Some (pre, cap, rest) ->
  forall pre' cap' rest',
    s = pre' +:+ Regexp.realm_text cap' +:+ rest' ->
    Strings.has_byte LF cap' = false ->
    (String.length pre <= String.length pre')%nat.
Proof.
  revert pre; induction s as [|c s IH]; intros pre H pre' cap' rest' Hs Hl;
    simpl in H.
  - discriminate.
  - destruct (Regexp.realm_match (String c s)) as [[cap0 rest0]|] eqn:E.
    + inversion H; subst. simpl. lia.
    + destruct (Regexp.realm_find s) as [[[pre0 cap0] rest0]|];
        [|discriminate].
      inversion H; subst. destruct pre' as [|d pre'].
      * change (String c s = Regexp.realm_text cap' +:+ rest') in Hs.
        rewrite Hs in E.
        destruct (realm_match_total cap' rest' Hl) as (x & y & E').
        rewrite E' in E. discriminate.
      * simpl in Hs. inversion Hs; subst. simpl.
        specialize (IH _ eq_refl pre' cap' rest' eq_refl Hl). lia.
Qed.

(** ... and finds one whenever the expression matches somewhere. *)
Lemma realm_find_None s :
  Regexp.realm_find s = None ->
  forall pre cap rest,
    Strings.has_byte LF cap = false ->
    s <> pre +:+ Regexp.realm_text cap +:+ rest.
Proof.
  induction s as [|c s IH]; intros H pre cap rest Hl Hs; simpl in H.
  - unfold Regexp.realm_text in Hs. destruct pre; simpl in Hs; discriminate.
  - destruct (Regexp.realm_match (String c s)) as [[cap0 rest0]|] eqn:E;
      [discriminate|].
    destruct (Regexp.realm_find s) as [[[pre0 cap0] rest0]|] eqn:E0;
      [discriminate|].
    destruct pre as [|d pre].
    + change (String c s = Regexp.realm_text cap +:+ rest) in Hs.
      rewrite Hs in E.
      destruct (realm_match_total cap rest Hl) as (x & y & E').
      rewrite E' in E. discriminate.
    + simpl in Hs. inversion Hs; subst.
      now apply (IH eq_refl pre cap rest Hl).
Qed.

Lemma realm_find_length s pre cap rest :
  Regexp.realm_find s = Some (pre, cap, rest) ->
  (String.length rest < String.length s)%nat.
Proof.
  intros H. apply realm_find_Some in H as [-> _].
  rewrite !length_append. unfold Regexp.realm_text. simpl. lia.
Qed.

(** The loop of [ReplaceAllString] never runs out of turns: any two
    budgets of at least the length of the input give the same result. *)
Lemma realm_replaceAll_fuel n m s repl :
  (String.length s <= n)%nat -> (String.length s <= m)%nat ->
  Regexp.realm_replaceAll U n s repl = Regexp.realm_replaceAll U m s repl.
Proof.
  revert m s; induction n as [|n IH]; intros m s Hn Hm.
  - destruct s; [|simpl in Hn; lia]. now destruct m.
  - destruct m as [|m].
    + destruct s; [reflexivity | simpl in Hm; lia].
    + cbn [Regexp.realm_replaceAll].
      destruct (Regexp.realm_find s) as [[[pre cap] rest]|] eqn:E;
        [|reflexivity].
      pose proof (realm_find_length _ _ _ _ E) as Hlen.
      now rewrite (IH m rest) by lia.
Qed.

(** The equation of [realm.ReplaceAllString]. *)
Lemma realm_ReplaceAllString_eq s repl :
  Regexp.realm_ReplaceAllString U s repl
  = match Regexp.realm_find s with
    | None => s
    | Some (pre, cap, rest) =>
        pre +:+ Regexp.Expand U repl [Regexp.realm_text cap; cap]
            +:+ Regexp.realm_ReplaceAllString U rest repl
    end.
Proof.
  unfold Regexp.realm_ReplaceAllString.
  destruct s as [|c s]; [reflexivity|].
  cbn [Regexp.realm_replaceAll String.length].
  destruct (Regexp.realm_find (String c s)) as [[[pre cap] rest]|] eqn:E;
    [|reflexivity].
  pose proof (realm_find_length _ _ _ _ E) as Hlen. simpl in Hlen.
  now rewrite (realm_replaceAll_fuel (String.length s) (String.length rest))
    by lia.
Qed.

End RegexpFacts.

(** * The registry path rewriter *)

Section Rewriter.

Variable U : string -> nat.

(** The director touches the host, the scheme and the path only. *)
Lemma rewriteRegistryV2URL_frame c req :
  let req' := rewriteRegistryV2URL U c req in
  Http.Host req' = host c
  /\ Url.Scheme (Http.URL req') = "https"
  /\ Url.Host (Http.URL req') = host c
  /\ Url.RawQuery (Http.URL req') = Url.RawQuery (Http.URL req)
  /\ Url.Fragment (Http.URL req') = Url.Fragment (Http.URL req)
  /\ Http.Method req' = Http.Method req
  /\ Http.ReqHeader req' = Http.ReqHeader req
  /\ Http.ctxOriginalHost req' = Http.ctxOriginalHost req.
Proof.
  unfold rewriteRegistryV2URL. simpl.
  destruct (negb (Url.Path (Http.URL req) =? "/v2/")%string); simpl; tauto.
Qed.

(** The bare probe keeps its path. *)
Lemma rewriteRegistryV2URL_probe c req :
  Url.Path (Http.URL req) = "/v2/" ->
  Url.Path (Http.URL (rewriteRegistryV2URL U c req)) = "/v2/".
Proof.
  intros H. unfold rewriteRegistryV2URL. simpl. rewrite H.
  rewrite String.eqb_refl. simpl. exact H.
Qed.

(** With a prefix that holds no dollar sign, the leading [/v2/] becomes
    [/v2/<repoPrefix>/] and what follows it is kept. *)
Lemma rewriteRegistryV2URL_path c req rest :
  Strings.has_byte dollar (repoPrefix c) = false ->
  Url.Path (Http.URL req) = "/v2/" +:+ rest ->
  rest <> EmptyString ->
  Url.Path (Http.URL (rewriteRegistryV2URL U c req))
  = "/v2/" +:+ repoPrefix c +:+ "/" +:+ rest.
Proof.
  intros Hd Hp Hr. unfold rewriteRegistryV2URL. simpl. rewrite Hp.
  destruct (String.eqb_spec ("/v2/" +:+ rest) "/v2/") as [E|_].
  - destruct rest; [congruence | discriminate].
  - simpl negb. cbv iota. cbn [Url.Path Url.set_Path].
    rewrite re_ReplaceAllString_prefix.
    + simpl. now rewrite append_assoc.
    + simpl. rewrite has_byte_app, Hd. reflexivity.
Qed.

End Rewriter.

(** * The realm rewriter *)

Section RealmFacts.

Variable U : string -> nat.

Implicit Types s v h pre cap rest b z : string.

Lemma shift_nil o : shift EmptyString o = o.
Proof. now destruct o as [[[? ?] ?]|]. Qed.

Lemma shift_shift a b o : shift a (shift b o) = shift (a +:+ b) o.
Proof. destruct o as [[[? ?] ?]|]; simpl; [|reflexivity]. now rewrite append_assoc. Qed.

Lemma realm_find_skip c s :
  Regexp.realm_match (String c s) = None ->
  Regexp.realm_find (String c s)
  = shift (String c EmptyString) (Regexp.realm_find s).
Proof.
  intros H. cbn [Regexp.realm_find]. rewrite H.
  now destruct (Regexp.realm_find s) as [[[? ?] ?]|].
Qed.

Lemma realm_match_head c s :
  c <> "r"%char -> Regexp.realm_match (String c s) = None.
Proof.
  intros H. unfold Regexp.realm_match. simpl.
  now apply Ascii.eqb_neq in H as ->.
Qed.

(** A match that starts in [b] and reaches an opening [realm=] quote
    has the whole opening inside [b]. *)
Lemma CutPrefix_open b z t0 :
  b <> EmptyString ->
  Strings.CutPrefix (b +:+ Regexp.realm_open +:+ z) Regexp.realm_open = Some t0 ->
  exists b', b = Regexp.realm_open +:+ b'
             /\ t0 = b' +:+ Regexp.realm_open +:+ z.
Proof.
  intros Hb H.
  destruct b as [|c1 [|c2 [|c3 [|c4 [|c5 [|c6 [|c7 b']]]]]]];
    [congruence| | | | | | |];
    cbn in H; eqb_cases H; try discriminate H.
  exists b'. split; [reflexivity|]. now inversion H.
Qed.

Lemma realm_capture_stable x z z' :
  Regexp.realm_capture (x +:+ Regexp.realm_open +:+ z) = None ->
  Regexp.realm_capture (x +:+ Regexp.realm_open +:+ z') = None.
Proof.
  induction x as [|c x IH]; intros H.
  - cbn in H. discriminate H.
  - cbn [String.append Regexp.realm_capture] in H |- *.
    destruct (Ascii.eqb c dquote); [discriminate H|].
    destruct (Ascii.eqb c LF); [reflexivity|].
    destruct (Regexp.realm_capture (x +:+ Regexp.realm_open +:+ z))
      as [[? ?]|] eqn:E; [discriminate|].
    now rewrite (IH eq_refl).
Qed.

(** Whether a match starts at a place before an opening does not depend
    on what follows the opening. *)
Lemma realm_match_stable b z z' :
  b <> EmptyString ->
  Regexp.realm_match (b +:+ Regexp.realm_open +:+ z) = None ->
  Regexp.realm_match (b +:+ Regexp.realm_open +:+ z') = None.
Proof.
  intros Hb H. unfold Regexp.realm_match in *.
  destruct (Strings.CutPrefix (b +:+ Regexp.realm_open +:+ z')
                              Regexp.realm_open) as [t1|] eqn:E1;
    [|reflexivity].
  apply CutPrefix_open in E1 as (b' & -> & ->); [|exact Hb].
  rewrite append_assoc, CutPrefix_app in H.
  now apply realm_capture_stable with (z := z).
Qed.

Lemma realm_find_stable s pre cap rest z :
  Regexp.realm_find s = Some (pre, cap, rest) ->
  Regexp.realm_find (pre +:+ Regexp.realm_open +:+ z)
  = shift pre (Regexp.realm_find (Regexp.realm_open +:+ z)).
Proof.
  revert s; induction pre as [|c pre IH]; intros s H.
  - simpl. now rewrite shift_nil.
  - pose proof (realm_find_Some _ _ _ _ H) as [Hs _].
    rewrite realm_text_open in Hs. subst s.
    cbn [String.append Regexp.realm_find] in H.
    destruct (Regexp.realm_match
                (String c (pre +:+ Regexp.realm_open +:+ cap
                           +:+ String dquote rest)))
      as [[? ?]|] eqn:E; [discriminate|].
    destruct (Regexp.realm_find
                (pre +:+ Regexp.realm_open +:+ cap +:+ String dquote rest))
      as [[[pre0 cap0] rest0]|] eqn:E0; [|discriminate].
    assert (pre0 = pre /\ cap0 = cap /\ rest0 = rest) as (-> & -> & ->)
      by (inversion H; auto).
    cbn [String.append].
    rewrite realm_find_skip.
    + rewrite (IH _ E0), shift_shift. reflexivity.
    + apply (realm_match_stable (String c pre) (cap +:+ String dquote rest));
        [discriminate | exact E].
Qed.

(** The token endpoint of the proxy and the replacement text that
    [updateTokenEndpoint] builds from it. *)
Local Abbreviation cur h := ("https://" +:+ h +:+ "/_token") (only parsing).
Local Abbreviation F v h :=
  (Regexp.realm_ReplaceAllString U v ("realm=" +:+ quoted (cur h)))
  (only parsing).

Lemma cur_has_dquote h :
  Strings.has_byte dquote (cur h) = Strings.has_byte dquote h.
Proof. simpl. rewrite has_byte_app. simpl. now rewrite ?orb_false_r. Qed.

Lemma cur_has_LF h :
  Strings.has_byte LF (cur h) = Strings.has_byte LF h.
Proof. simpl. rewrite has_byte_app. simpl. now rewrite ?orb_false_r. Qed.

Lemma repl_has_dollar h :
  Strings.has_byte dollar ("realm=" +:+ quoted (cur h))
  = Strings.has_byte dollar h.
Proof.
  unfold quoted. simpl. rewrite !has_byte_app. simpl.
  now rewrite ?orb_false_r.
Qed.

(** With a host that holds no dollar sign, every match is replaced by
    the same text. *)
Lemma rewrite_eq v h :
  Strings.has_byte dollar h = false ->
  F v h = match Regexp.realm_find v with
          | None => v
          | Some (pre, cap, rest) =>
              pre +:+ Regexp.realm_text (cur h) +:+ F rest h
          end.
Proof.
  intros Hd. rewrite realm_ReplaceAllString_eq.
  destruct (Regexp.realm_find v) as [[[pre cap] rest]|]; [|reflexivity].
  rewrite Expand_no_dollar; [reflexivity|]. now rewrite repl_has_dollar.
Qed.

(** Text in which no match starts is copied. *)
Lemma rewrite_shift a y h :
  Strings.has_byte dollar h = false ->
  Regexp.realm_find (a +:+ y) = shift a (Regexp.realm_find y) ->
  F (a +:+ y) h = a +:+ F y h.
Proof.
  intros Hd H. rewrite (rewrite_eq (a +:+ y)), (rewrite_eq y) by exact Hd.
  rewrite H. destruct (Regexp.realm_find y) as [[[pre cap] rest]|]; simpl.
  - now rewrite append_assoc.
  - reflexivity.
Qed.

(** The replacement text is itself one match when the host holds no
    quote and no line feed ... *)
Lemma realm_find_self h y :
  Strings.has_byte dquote h = false ->
  Strings.has_byte LF h = false ->
  Regexp.realm_find (Regexp.realm_open +:+ cur h +:+ String dquote y)
  = Some (EmptyString, cur h, y).
Proof.
  intros Hq Hl.
  rewrite <- realm_text_open.
  assert (Regexp.realm_match (Regexp.realm_text (cur h) +:+ y)
          = Some (cur h, y)) as E.
  { apply realm_match_text. split; [now rewrite cur_has_dquote
                                   | now rewrite cur_has_LF]. }
  unfold Regexp.realm_text, quoted in *. cbn [String.append] in *.
  cbn [Regexp.realm_find]. now rewrite E.
Qed.

(** No match starts inside a host without quotes that is followed by
    the end of the replacement text. *)
Lemma realm_match_host b y :
  Strings.has_byte dquote b = false ->
  Regexp.realm_match (b +:+ "/_token" +:+ String dquote y) = None.
Proof.
  intros Hq. unfold Regexp.realm_match.
  destruct (Strings.CutPrefix (b +:+ "/_token" +:+ String dquote y)
                              Regexp.realm_open) as [t1|] eqn:E;
    [|reflexivity].
  exfalso.
  destruct b as [|c1 [|c2 [|c3 [|c4 [|c5 [|c6 [|c7 b']]]]]]];
    cbn in E; eqb_cases E; try discriminate E.
  cbn in Hq. discriminate Hq.
Qed.

Lemma realm_find_host b y :
  Strings.has_byte dquote b = false ->
  Regexp.realm_find (b +:+ "/_token" +:+ String dquote y)
  = shift (b +:+ "/_token" +:+ String dquote EmptyString)
          (Regexp.realm_find y).
Proof.
  intros Hq. induction b as [|c b IH].
  - cbn [String.append].
    repeat (rewrite realm_find_skip
              by (apply realm_match_head; discriminate);
            rewrite ?shift_shift).
    reflexivity.
  - change (String c b +:+ "/_token" +:+ String dquote y)
      with (String c (b +:+ "/_token" +:+ String dquote y)).
    rewrite realm_find_skip.
    + cbn in Hq. apply orb_false_iff in Hq as [_ Hq].
      rewrite (IH Hq), shift_shift. reflexivity.
    + now apply (realm_match_host (String c b)).
Qed.

(** ... and holds no match at all when the host holds a line feed. *)
Lemma realm_find_broken h y :
  Strings.has_byte dquote h = false ->
  Strings.has_byte LF h = true ->
  Regexp.realm_find (Regexp.realm_open +:+ cur h +:+ String dquote y)
  = shift (Regexp.realm_open +:+ cur h +:+ String dquote EmptyString)
          (Regexp.realm_find y).
Proof.
  intros Hq Hl.
  assert (Regexp.realm_match
            (Regexp.realm_open +:+ cur h +:+ String dquote y) = None) as E.
  { unfold Regexp.realm_match. rewrite CutPrefix_app.
    apply realm_capture_LF;
      [now rewrite cur_has_dquote | now rewrite cur_has_LF]. }
  unfold Regexp.realm_open in *. cbn [String.append] in *.
  rewrite realm_find_skip by exact E.
  repeat (rewrite realm_find_skip
            by (apply realm_match_head; discriminate);
          rewrite ?shift_shift).
  rewrite (append_assoc h), (realm_find_host h y Hq), shift_shift.
  cbn [String.append]. now rewrite !append_assoc.
Qed.

Lemma rewrite_idem_lt n : forall v h,
  (String.length v < n)%nat ->
  Strings.has_byte dollar h = false ->
  Strings.has_byte dquote h = false ->
  F (F v h) h = F v h.
Proof.
  induction n as [|n IH]; intros v h Hn Hd Hq; [lia|].
  rewrite (rewrite_eq v h Hd).
  destruct (Regexp.realm_find v) as [[[pre cap] rest]|] eqn:E.
  - pose proof (realm_find_length _ _ _ _ E) as Hlen.
    assert (F (F rest h) h = F rest h) as IHrest by (apply IH; [lia|auto..]).
    pose proof (realm_find_stable _ _ _ _ (cur h +:+ String dquote (F rest h)) E)
      as Hfind.
    rewrite realm_text_open.
    destruct (Strings.has_byte LF h) eqn:Hl.
    + rewrite (realm_find_broken h _ Hq Hl), shift_shift in Hfind.
      assert (pre +:+ Regexp.realm_open +:+ cur h +:+ String dquote (F rest h)
              = (pre +:+ Regexp.realm_open +:+ cur h
                     +:+ String dquote EmptyString) +:+ F rest h) as Hs.
      { rewrite !append_assoc. reflexivity. }
      rewrite Hs in Hfind |- *.
      rewrite (rewrite_shift _ _ h Hd Hfind). now rewrite IHrest.
    + rewrite (realm_find_self h _ Hq Hl) in Hfind. cbn [shift] in Hfind.
      rewrite (rewrite_eq _ h Hd), Hfind.
      rewrite append_nil_r, IHrest. now rewrite realm_text_open.
  - rewrite (rewrite_eq v h Hd), E. reflexivity.
Qed.

(** The rewrite of a header value is idempotent for a host that holds
    no dollar sign and no quote. *)
Lemma rewrite_idem v h :
  Strings.has_byte dollar h = false ->
  Strings.has_byte dquote h = false ->
  F (F v h) h = F v h.
Proof. apply (rewrite_idem_lt (S (String.length v))). lia. Qed.

(** A rewritten value is empty only if the value was. *)
Lemma rewrite_nonempty v h :
  Strings.has_byte dollar h = false ->
  v <> EmptyString -> F v h <> EmptyString.
Proof.
  intros Hd Hv. rewrite (rewrite_eq v h Hd).
  destruct (Regexp.realm_find v) as [[[pre cap] rest]|]; [|exact Hv].
  unfold Regexp.realm_text. destruct pre; discriminate.
Qed.

End RealmFacts.

(** * Headers and the response rewriter *)

Section ResponseFacts.

Variable U : string -> nat.

Local Abbreviation cur h := ("https://" +:+ h +:+ "/_token") (only parsing).
Local Abbreviation F v h :=
  (Regexp.realm_ReplaceAllString U v ("realm=" +:+ quoted (cur h)))
  (only parsing).

Lemma Header_Get_Set (h : Http.Header) key value :
  Http.Get (Http.Set_ h key value) key = value.
Proof. unfold Http.Get, Http.Set_. now rewrite lookup_insert_eq. Qed.

Lemma Header_Set_Set (h : Http.Header) key v w :
  Http.Set_ (Http.Set_ h key v) key w = Http.Set_ h key w.
Proof. unfold Http.Set_. apply insert_insert_eq. Qed.




Lemma updateTokenEndpoint_absent resp h :
  Http.Get (Http.RespHeader resp) "www-authenticate" = EmptyString ->
  updateTokenEndpoint U resp h = resp.
Proof. intros H. unfold updateTokenEndpoint. now rewrite H. Qed.

Lemma updateTokenEndpoint_value resp h :
  Http.Get (Http.RespHeader resp) "www-authenticate" <> EmptyString ->
  updateTokenEndpoint U resp h
  = Http.set_RespHeader
      (Http.Set_ (Http.RespHeader resp) "www-authenticate"
         (F (Http.Get (Http.RespHeader resp) "www-authenticate") h))
      resp.
Proof.
  intros H. unfold updateTokenEndpoint.
  now destruct (String.eqb_spec
                  (Http.Get (Http.RespHeader resp) "www-authenticate")
                  EmptyString).
Qed.


Lemma updateTokenEndpoint_idem resp h :
  Strings.has_byte dollar h = false ->
  Strings.has_byte dquote h = false ->
  updateTokenEndpoint U (updateTokenEndpoint U resp h) h
  = updateTokenEndpoint U resp h.
Proof.
  intros Hd Hq.
  destruct (String.eqb_spec
              (Http.Get (Http.RespHeader resp) "www-authenticate")
              EmptyString) as [E|E].
  - now rewrite !(updateTokenEndpoint_absent resp h E).
  - rewrite (updateTokenEndpoint_value resp h E).
    rewrite updateTokenEndpoint_value; cbn [Http.RespHeader Http.set_RespHeader];
      rewrite Header_Get_Set.
    + rewrite Header_Set_Set, (rewrite_idem U _ h Hd Hq). reflexivity.
    + now apply rewrite_nonempty.
Qed.

End ResponseFacts.

(** * Query strings: [Encode] and [ParseQuery] *)

Section QueryFacts.

Implicit Types s k v piece : string.
Implicit Types m q : Url.Values.




















End QueryFacts.

(** * The token proxy *)

Section TokenProxyFacts.

Variable url_Parse : string -> option Url.URL.

Lemma append_inv_length (b b' x y : string) :
  b +:+ x = b' +:+ y -> String.length b = String.length b' ->
  b = b' /\ x = y.
Proof.
  revert b'; induction b as [|c b IH]; intros [|c' b'] H L;
    try discriminate L.
  - now split.
  - simpl in H, L. inversion H; subst.
    destruct (IH b' H2) as [-> ->]; [lia | now split].
Qed.





Lemma Values_Get_absent (q : Url.Values) key :
  q !! key = None -> Url.Get q key = EmptyString.
Proof. unfold Url.Get. now intros ->. Qed.

Lemma Values_Get_first (q : Url.Values) key v vs :
  q !! key = Some (v :: vs) -> Url.Get q key = v.
Proof. unfold Url.Get. now intros ->. Qed.

(** The guard of the director: with an empty [scope] it returns at
    once and the request is as it came. *)
Lemma tokenProxyHandler_return tokenEndpoint repoPrefix r :
  Url.Get (Url.Query (Http.URL r)) "scope" = EmptyString ->
  tokenProxyHandler url_Parse tokenEndpoint repoPrefix r = Ok r.
Proof. intros H. unfold tokenProxyHandler. now rewrite H. Qed.


End TokenProxyFacts.

(** * The round tripper *)

Section RoundTripFacts.

Variable U : string -> nat.
Variable T : Http.Request -> Http.Response + string.

Lemma canon_authorization :
  Http.CanonicalMIMEHeaderKey "Authorization" = "Authorization".
Proof. reflexivity. Qed.

Lemma canon_user_agent :
  Http.CanonicalMIMEHeaderKey "user-agent" = "User-Agent".
Proof. reflexivity. Qed.

Lemma canon_accept : Http.CanonicalMIMEHeaderKey "accept" = "Accept".
Proof. reflexivity. Qed.

Lemma canon_www_authenticate :
  Http.CanonicalMIMEHeaderKey "www-authenticate" = "Www-Authenticate".
Proof. reflexivity. Qed.

(** [RoundTrip] forwards [outbound] and rewrites the response. *)
Lemma RoundTrip_forward rrt store req origHost :
  Http.ctxOriginalHost req = Some origHost ->
  RoundTrip U T rrt store req
  = match T (outbound rrt store origHost req) with
    | inl resp => Ok (updateTokenEndpoint U resp origHost)
    | inr err => Err err
    end.
Proof. intros H. unfold RoundTrip. now rewrite H. Qed.

Lemma RoundTrip_no_context rrt store req :
  Http.ctxOriginalHost req = None ->
  exists msg, RoundTrip U T rrt store req = Panic msg.
Proof. intros H. unfold RoundTrip. rewrite H. eauto. Qed.

(** The middleware gives the round tripper its context value. *)
Lemma captureHostHeader_context req :
  Http.ctxOriginalHost (captureHostHeader req) = Some (Http.Host req).
Proof. reflexivity. Qed.

Lemma outbound_Authorization rrt store origHost req :
  Http.ReqHeader (outbound rrt store origHost req) !! "Authorization"
  = match auth rrt with
    | Some a => Some [AuthHeader a store]
    | None => Http.ReqHeader req !! "Authorization"
    end.
Proof.
  unfold outbound, Http.Set_, Http.Get. cbn [Http.ReqHeader Http.set_ReqHeader].
  rewrite canon_accept, canon_user_agent, canon_authorization.
  rewrite lookup_insert_ne by discriminate.
  destruct (auth rrt) as [a|].
  - destruct (nonempty _).
    + rewrite lookup_insert_ne by discriminate. apply lookup_insert_eq.
    + apply lookup_insert_eq.
  - destruct (nonempty _); [|reflexivity].
    now rewrite lookup_insert_ne by discriminate.
Qed.

Lemma outbound_User_Agent rrt store origHost req :
  Http.ReqHeader (outbound rrt store origHost req) !! "User-Agent"
  = let ua := Http.Get (Http.ReqHeader req) "user-agent" in
    if nonempty ua
    then Some ["gcr-proxy/0.1 customDomain/" +:+ origHost +:+ " " +:+ ua]
    else Http.ReqHeader req !! "User-Agent".
Proof.
  unfold outbound, Http.Set_, Http.Get. cbn [Http.ReqHeader Http.set_ReqHeader].
  rewrite canon_accept, canon_user_agent, canon_authorization. cbv zeta.
  rewrite lookup_insert_ne by discriminate.
  destruct (auth rrt) as [a|].
  - rewrite lookup_insert_ne by discriminate.
    destruct (nonempty _); [apply lookup_insert_eq|].
    now rewrite lookup_insert_ne by discriminate.
  - destruct (nonempty _); [apply lookup_insert_eq | reflexivity].
Qed.

Lemma outbound_Accept rrt store origHost req :
  Http.ReqHeader (outbound rrt store origHost req) !! "Accept" = Some ["*/*"].
Proof.
  unfold outbound, Http.Set_. cbn [Http.ReqHeader Http.set_ReqHeader].
  rewrite canon_accept. apply lookup_insert_eq.
Qed.

(** Only the header of the request changes. *)
Lemma outbound_frame rrt store origHost req :
  Http.URL (outbound rrt store origHost req) = Http.URL req
  /\ Http.Host (outbound rrt store origHost req) = Http.Host req
  /\ Http.Method (outbound rrt store origHost req) = Http.Method req.
Proof. now unfold outbound. Qed.

End RoundTripFacts.

(** * Token endpoint discovery and start-up *)

Section DiscoveryFacts.

Lemma realm_find_first s pre cap rest :
  first_realm s pre cap rest <-> Regexp.realm_find s = Some (pre, cap, rest).
Proof.
  split.
  - intros ([Hs Hl] & Hq & Hmin).
    destruct (Regexp.realm_find s) as [[[p0 c0] r0]|] eqn:E.
    + pose proof (realm_find_Some _ _ _ _ E) as [Hs0 [Hq0 Hl0]].
      pose proof (realm_find_leftmost _ _ _ _ E pre cap rest Hs Hl) as H1.
      pose proof (Hmin p0 c0 r0 (conj Hs0 Hl0)) as H2.
      rewrite Hs in Hs0.
      destruct (append_inv_length pre p0 _ _ Hs0) as [-> H3]; [lia|].
      rewrite !realm_text_open in H3.
      destruct (append_inv_length Regexp.realm_open Regexp.realm_open _ _ H3)
        as [_ H4]; [reflexivity|].
      pose proof (realm_capture_clean cap rest (conj Hq Hl)) as C1.
      pose proof (realm_capture_clean c0 r0 (conj Hq0 Hl0)) as C2.
      rewrite H4 in C1. rewrite C1 in C2. now inversion C2.
    + exfalso. exact (realm_find_None _ E pre cap rest Hl Hs).
  - intros E. pose proof (realm_find_Some _ _ _ _ E) as [Hs [Hq Hl]].
    repeat split; try assumption.
    intros pre' cap' rest' [Hs' Hl'].
    exact (realm_find_leftmost _ _ _ _ E pre' cap' rest' Hs' Hl').
Qed.

Lemma realm_find_no s : no_realm s <-> Regexp.realm_find s = None.
Proof.
  split.
  - intros H. destruct (Regexp.realm_find s) as [[[p0 c0] r0]|] eqn:E;
      [|reflexivity].
    pose proof (realm_find_Some _ _ _ _ E) as [Hs [_ Hl]].
    exfalso. exact (H p0 c0 r0 (conj Hs Hl)).
  - intros E pre cap rest [Hs Hl]. exact (realm_find_None _ E pre cap rest Hl Hs).
Qed.

Lemma no_realm_empty : no_realm EmptyString.
Proof. now apply realm_find_no. Qed.

Lemma discoverTokenService_found registryHost get resp pre cap rest :
  get ("https://" +:+ registryHost +:+ "/v2/") = inl resp ->
  Regexp.realm_find (Http.Get (Http.RespHeader resp) "www-authenticate")
  = Some (pre, cap, rest) ->
  discoverTokenService registryHost get = Ok cap.
Proof.
  intros Hg Hf. unfold discoverTokenService. rewrite Hg.
  destruct (String.eqb_spec
              (Http.Get (Http.RespHeader resp) "www-authenticate")
              EmptyString) as [E|_].
  - rewrite E in Hf. discriminate Hf.
  - unfold Regexp.realm_FindStringSubmatch. now rewrite Hf.
Qed.

Lemma discoverTokenService_missing registryHost get resp :
  get ("https://" +:+ registryHost +:+ "/v2/") = inl resp ->
  Regexp.realm_find (Http.Get (Http.RespHeader resp) "www-authenticate")
  = None ->
  is_Err (discoverTokenService registryHost get).
Proof.
  intros Hg Hf. unfold discoverTokenService. rewrite Hg.
  destruct (String.eqb (Http.Get (Http.RespHeader resp) "www-authenticate")
                       EmptyString); [exact I|].
  unfold Regexp.realm_FindStringSubmatch. rewrite Hf. exact I.
Qed.

Lemma discoverTokenService_unreachable registryHost get err :
  get ("https://" +:+ registryHost +:+ "/v2/") = inr err ->
  is_Err (discoverTokenService registryHost get).
Proof. intros Hg. unfold discoverTokenService. now rewrite Hg. Qed.


End DiscoveryFacts.

(** * The metadata-server authenticator *)

Section AuthFacts.

Lemma wrap64_small z : - 2 ^ 63 <= z < 2 ^ 63 -> Time.wrap64 z = z.
Proof. intros H. unfold Time.wrap64. rewrite Z.mod_small; lia. Qed.

Lemma wrap64_mod z : Time.wrap64 z mod 2 ^ 64 = z mod 2 ^ 64.
Proof.
  unfold Time.wrap64. rewrite Zminus_mod_idemp_l. f_equal. lia.
Qed.

Lemma wrap64_congr x y :
  x mod 2 ^ 64 = y mod 2 ^ 64 -> Time.wrap64 x = Time.wrap64 y.
Proof.
  intros H. unfold Time.wrap64. f_equal.
  rewrite <- (Zplus_mod_idemp_l x), <- (Zplus_mod_idemp_l y). now rewrite H.
Qed.

(** The duration the timer is armed with, in one wrap-around. *)
Lemma timer_duration e :
  Time.sub (Time.mul (Time.Duration e) Time.Second)
           (Time.mul 5 Time.Minute)
  = Time.wrap64 ((e - 300) * 1000000000).
Proof.
  unfold Time.sub, Time.mul, Time.Duration. apply wrap64_congr.
  rewrite Zminus_mod, !wrap64_mod.
  rewrite <- (Zmult_mod_idemp_l (Time.wrap64 e)), wrap64_mod.
  rewrite Zmult_mod_idemp_l, <- Zminus_mod. f_equal.
  unfold Time.Minute, Time.Second. lia.
Qed.

Lemma updateToken_Replied m tok :
  updateToken m (Replied tok)
  = Ok (mkMeta (Token.TokenType tok +:+ " " +:+ Token.AccessToken tok)
               (Token.ExpiresIn tok)
               (Some (Time.wrap64 ((Token.ExpiresIn tok - 300) * 1000000000)))).
Proof. unfold updateToken, getAuthToken. now rewrite timer_duration. Qed.

(** Any other reply ends the process: a token is never kept past a
    failed fetch. *)
Lemma updateToken_failed m reply :
  (forall tok, reply <> Replied tok) -> is_Fatal (updateToken m reply).
Proof.
  intros H. destruct reply; try exact I. now destruct (H tok).
Qed.

(** After any run of successful refreshes the object holds what the
    last reply gave. *)
Lemma updateTokenTimer_last m toks tok :
  updateTokenTimer m (map Replied (toks ++ [tok])%list)
  = updateToken m (Replied tok).
Proof.
  revert m; induction toks as [|tok0 toks IH]; intros m.
  - cbn [app map updateTokenTimer]. rewrite updateToken_Replied. reflexivity.
  - cbn [app map updateTokenTimer]. rewrite (updateToken_Replied m tok0).
    rewrite IH. now rewrite !updateToken_Replied.
Qed.

End AuthFacts.

(** * The claims *)

(** The end-to-end scenario of the specification. *)
Example rewrite_manifest_request :
  let req := rewriteRegistryV2URL ascii_names gcr
               (request "GET" "myproxy.example.org"
                        "/v2/library/ubuntu/manifests/latest" "n=10" ∅) in
  Url.Scheme (Http.URL req) = "https"
  /\ Url.Host (Http.URL req) = "gcr.io"
  /\ Url.Path (Http.URL req) = "/v2/myorg/library/ubuntu/manifests/latest"
  /\ Url.RawQuery (Http.URL req) = "n=10"
  /\ Http.Host req = "gcr.io".
Proof. repeat split. Qed.

(** C1 (the code departs from the claim).  The claim: a path [/v2/<rest>]
    with a non-empty rest becomes [/v2/<repoPrefix>/<rest>].  The director
    hands the prefix to [ReplaceAllString] as a template, in which a
    dollar sign starts a group reference: with the prefix [acme$dev] the
    path [/v2/library/ubuntu/manifests/latest] becomes
    [/v2/acme/library/ubuntu/manifests/latest], the path of another
    namespace, while the query, the scheme and the two hosts are set as
    claimed. *)
Theorem C1_dollar_prefix_lost (U : string -> nat) :
  let req := rewriteRegistryV2URL U (mkConfig "gcr.io" "acme$dev")
               (request "GET" "myproxy.example.org"
                        "/v2/library/ubuntu/manifests/latest" "n=10" ∅) in
  Url.Path (Http.URL req) = "/v2/acme/library/ubuntu/manifests/latest"
  /\ Url.RawQuery (Http.URL req) = "n=10"
  /\ Url.Scheme (Http.URL req) = "https"
  /\ Url.Host (Http.URL req) = "gcr.io"
  /\ Http.Host req = "gcr.io".
Proof. repeat split. Qed.

(** The example of the specification: only the realm changes. *)
Example rewrite_bearer_challenge :
  updateTokenEndpoint ascii_names (unauthorized bearer_challenge)
                      "myproxy.example.org"
  = unauthorized ("Bearer realm=" +:+ quoted "https://myproxy.example.org/_token"
                  +:+ ",service=" +:+ quoted "r").
Proof. vm_compute. reflexivity. Qed.




(** C8, where the claim fails.  With a host that holds a quote, here
    the host [a], a quote, [b], the rewritten realm ends at that quote,
    and the second rewrite replaces the shorter realm and leaves the old
    tail behind it.  With the host [$1], a template, every rewrite wraps
    the realm once more. *)
Lemma C8_not_idempotent :
  let value r := Http.Get (Http.RespHeader r) "www-authenticate" in
  let once h :=
    value (updateTokenEndpoint ascii_names (unauthorized bearer_challenge) h) in
  let twice h :=
    value (updateTokenEndpoint ascii_names
             (updateTokenEndpoint ascii_names (unauthorized bearer_challenge) h)
             h) in
  let h := "a" +:+ String dquote "b" in
  once h = "Bearer realm=" +:+ quoted "https://a" +:+ "b/_token"
           +:+ String dquote (",service=" +:+ quoted "r")
  /\ twice h = "Bearer realm=" +:+ quoted "https://a" +:+ "b/_token"
               +:+ quoted "b/_token" +:+ ",service=" +:+ quoted "r"
  /\ String.eqb (twice h) (once h) = false
  /\ once "$1"
     = "Bearer realm=" +:+ quoted "https://https://auth.example.com/token/_token"
       +:+ ",service=" +:+ quoted "r"
  /\ twice "$1"
     = "Bearer realm="
       +:+ quoted "https://https://https://auth.example.com/token/_token/_token"
       +:+ ",service=" +:+ quoted "r"
  /\ String.eqb (twice "$1") (once "$1") = false.
Proof. repeat split; vm_compute; reflexivity. Qed.

(** C8, amended.  For a host that holds no dollar sign and no quote,
    rewriting a rewritten header value, or a rewritten response, once
    more with the same host changes nothing. *)
Theorem C8_rewrite_idempotent (U : string -> nat) resp v h :
  Strings.has_byte dollar h = false ->
  Strings.has_byte dquote h = false ->
  let rewrite v :=
    Regexp.realm_ReplaceAllString U v
      ("realm=" +:+ quoted ("https://" +:+ h +:+ "/_token")) in
  rewrite (rewrite v) = rewrite v
  /\ updateTokenEndpoint U (updateTokenEndpoint U resp h) h
     = updateTokenEndpoint U resp h.
Proof.
  intros Hd Hq rw. split.
  - now apply rewrite_idem.
  - now apply updateTokenEndpoint_idem.
Qed.

(** C8 at the example of the specification. *)
Lemma C8_rewrite_idempotent_witness :
  let h := "myproxy.example.org" in
  let rewrite v :=
    Regexp.realm_ReplaceAllString ascii_names v
      ("realm=" +:+ quoted ("https://" +:+ h +:+ "/_token")) in
  rewrite (rewrite bearer_challenge) = rewrite bearer_challenge
  /\ updateTokenEndpoint ascii_names
       (updateTokenEndpoint ascii_names (unauthorized bearer_challenge) h) h
     = updateTokenEndpoint ascii_names (unauthorized bearer_challenge) h.
Proof.
  exact (C8_rewrite_idempotent ascii_names (unauthorized bearer_challenge)
           bearer_challenge "myproxy.example.org" eq_refl eq_refl).
Defined.

(** A token request of a client that pulls [foo/bar], and the request
    the director leaves: the example of the specification. *)
Example token_request_scope :
  tokenProxyHandler parse_plain "https://auth.example.com/token" "myproject"
    (request "GET" "myproxy.example.org" "/_token"
             "service=gcr.io&scope=repository%3Afoo%2Fbar%3Apull" ∅)
  = Ok (Http.mkRequest "GET"
          (Url.mkURL "https" EmptyString None "auth.example.com" "/token"
             EmptyString false
             "scope=repository%3Amyproject%2Ffoo%2Fbar%3Apull&service=gcr.io"
             EmptyString)
          ∅ "auth.example.com"
          "/_token?service=gcr.io&scope=repository%3Afoo%2Fbar%3Apull"
          None).
Proof. vm_compute. reflexivity. Qed.



(** C4 (the code departs from the claim).  The claim: a token request
    without [scope] is forwarded to the token endpoint with its query as
    it came.  The director returns before it sets the URL: the request
    of [docker login], which names a service and an account but no scope,
    is left with no scheme and no host in its URL and with the proxy's own
    name in [Host], whatever the token endpoint is; only the query is as
    claimed. *)
Theorem C4_no_scope_not_forwarded
    (url_Parse : string -> option Url.URL) (tokenEndpoint : string) :
  let r := request "GET" "myproxy.example.org" "/_token"
                   "service=gcr.io&account=me" ∅ in
  Url.Query (Http.URL r) !! "scope" = None
  /\ tokenProxyHandler url_Parse tokenEndpoint "myproject" r = Ok r
  /\ Url.Scheme (Http.URL r) = EmptyString
  /\ Url.Host (Http.URL r) = EmptyString
  /\ Url.Path (Http.URL r) = "/_token"
  /\ Url.RawQuery (Http.URL r) = "service=gcr.io&account=me"
  /\ Http.Host r = "myproxy.example.org".
Proof.
  intros r. split; [vm_compute; reflexivity|].
  split; [|now repeat split].
  apply tokenProxyHandler_return. vm_compute. reflexivity.
Qed.

(** C10.  A request whose first [scope] value is empty and a request
    with no [scope] at all are treated alike: the director returns the
    request as it came, with its query, its URL and its [Host]. *)
Theorem C10_empty_scope_returns
    (url_Parse : string -> option Url.URL) tokenEndpoint repoPrefix r :
  let q := Url.Query (Http.URL r) in
  (q !! "scope" = None \/ exists vs, q !! "scope" = Some (EmptyString :: vs)) ->
  tokenProxyHandler url_Parse tokenEndpoint repoPrefix r = Ok r.
Proof.
  intros q H. apply tokenProxyHandler_return. fold q.
  destruct H as [H | [vs H]].
  - now apply Values_Get_absent.
  - now apply Values_Get_first with (vs := vs).
Qed.

(** C10 at a request with an empty scope and at one without scope. *)
Lemma C10_empty_scope_returns_witness :
  let empty := request "GET" "myproxy.example.org" "/_token"
                       "scope=&service=gcr.io" ∅ in
  let none := request "GET" "myproxy.example.org" "/_token"
                      "service=gcr.io" ∅ in
  tokenProxyHandler parse_plain "https://auth.example.com/token"
                    "myproject" empty = Ok empty
  /\ tokenProxyHandler parse_plain "https://auth.example.com/token"
                       "myproject" none = Ok none.
Proof.
  split.
  - apply (C10_empty_scope_returns parse_plain
             "https://auth.example.com/token" "myproject"
             (request "GET" "myproxy.example.org" "/_token"
                      "scope=&service=gcr.io" ∅)).
    right. exists []. vm_compute. reflexivity.
  - apply (C10_empty_scope_returns parse_plain
             "https://auth.example.com/token" "myproject"
             (request "GET" "myproxy.example.org" "/_token"
                      "service=gcr.io" ∅)).
    left. vm_compute. reflexivity.
Defined.

(** C5.  [RoundTrip] forwards the request [outbound].  With an
    authenticator, its [Authorization] header is the single value the
    authenticator gives at that moment (for the metadata authenticator,
    the token in the store); without one, the header is as it came. *)
Theorem C5_authorization_set
    (U : string -> nat) (T : Http.Request -> Http.Response + string)
    rrt store req origHost :
  Http.ctxOriginalHost req = Some origHost ->
  let out := outbound rrt store origHost req in
  RoundTrip U T rrt store req
  = match T out with
    | inl resp => Ok (updateTokenEndpoint U resp origHost)
    | inr err => Err err
    end
  /\ (forall a, auth rrt = Some a ->
        Http.ReqHeader out !! "Authorization" = Some [AuthHeader a store]
        /\ Http.Get (Http.ReqHeader out) "Authorization" = AuthHeader a store)
  /\ (auth rrt = None ->
        Http.ReqHeader out !! "Authorization"
        = Http.ReqHeader req !! "Authorization").
Proof.
  intros Hc out. split; [now apply RoundTrip_forward|].
  pose proof (outbound_Authorization rrt store origHost req) as H. fold out in H.
  split.
  - intros a Ha. rewrite Ha in H. split; [exact H|].
    unfold Http.Get. rewrite canon_authorization. now rewrite H.
  - intros Ha. now rewrite Ha in H.
Qed.

(** C5 with the metadata authenticator and a refreshed token in the
    store. *)
Lemma C5_authorization_set_witness :
  let req := captureHostHeader
               (request "GET" "myproxy.example.org" "/v2/" EmptyString ∅) in
  let store := mkMeta "Bearer ya29.new" 3600 (Some 3300000000000) in
  let out := outbound (mkRoundtripper (Some metadataServer)) store
                      "myproxy.example.org" req in
  Http.ReqHeader out !! "Authorization" = Some ["Bearer ya29.new"].
Proof.
  exact (proj1 (proj1 (proj2
    (C5_authorization_set ascii_names (always (unauthorized bearer_challenge))
       (mkRoundtripper (Some metadataServer))
       (mkMeta "Bearer ya29.new" 3600 (Some 3300000000000))
       (captureHostHeader
          (request "GET" "myproxy.example.org" "/v2/" EmptyString ∅))
       "myproxy.example.org" eq_refl)) metadataServer eq_refl)).
Defined.

(** C9.  The [User-Agent] of the forwarded request: when the request
    came with none, or with an empty one, the header is as it came (the
    proxy sets none); when it came with a non-empty one, the header is
    the single value [gcr-proxy/0.1 customDomain/<originalHost> <it>]. *)
Theorem C9_user_agent_conditional
    (U : string -> nat) (T : Http.Request -> Http.Response + string)
    rrt store req origHost :
  Http.ctxOriginalHost req = Some origHost ->
  let ua := Http.Get (Http.ReqHeader req) "user-agent" in
  let out := outbound rrt store origHost req in
  RoundTrip U T rrt store req
  = match T out with
    | inl resp => Ok (updateTokenEndpoint U resp origHost)
    | inr err => Err err
    end
  /\ (Http.ReqHeader req !! "User-Agent" = None ->
      Http.ReqHeader out !! "User-Agent" = None)
  /\ (ua = EmptyString ->
      Http.ReqHeader out !! "User-Agent" = Http.ReqHeader req !! "User-Agent")
  /\ (ua <> EmptyString ->
      Http.ReqHeader out !! "User-Agent"
      = Some ["gcr-proxy/0.1 customDomain/" +:+ origHost +:+ " " +:+ ua]).
Proof.
  intros Hc ua out. split; [now apply RoundTrip_forward|].
  pose proof (outbound_User_Agent rrt store origHost req) as H.
  fold out in H. cbv zeta in H. fold ua in H.
  assert (ua = EmptyString ->
          Http.ReqHeader out !! "User-Agent" = Http.ReqHeader req !! "User-Agent")
    as Hempty.
  { intros E. now rewrite E in H. }
  split; [|split].
  - intros Hn. rewrite Hempty; [exact Hn|].
    subst ua. unfold Http.Get. rewrite canon_user_agent. now rewrite Hn.
  - exact Hempty.
  - intros E. unfold nonempty in H.
    now destruct (String.eqb_spec ua EmptyString).
Qed.

(** C9 at a request without a user agent and at one of a docker
    client. *)
Lemma C9_user_agent_conditional_witness :
  let req h := captureHostHeader
                 (request "GET" "myproxy.example.org" "/v2/" EmptyString h) in
  let out h := outbound (mkRoundtripper None) metadataServerAuth_zero
                        "myproxy.example.org" (req h) in
  Http.ReqHeader (out ∅) !! "User-Agent" = None
  /\ Http.ReqHeader (out {[ "User-Agent" := ["docker/20.10"] ]}) !! "User-Agent"
     = Some ["gcr-proxy/0.1 customDomain/myproxy.example.org docker/20.10"].
Proof.
  split.
  - exact (proj1 (proj2
      (C9_user_agent_conditional ascii_names
         (always (unauthorized bearer_challenge)) (mkRoundtripper None)
         metadataServerAuth_zero
         (captureHostHeader
            (request "GET" "myproxy.example.org" "/v2/" EmptyString ∅))
         "myproxy.example.org" eq_refl)) eq_refl).
  - refine (proj2 (proj2 (proj2
      (C9_user_agent_conditional ascii_names
         (always (unauthorized bearer_challenge)) (mkRoundtripper None)
         metadataServerAuth_zero
         (captureHostHeader
            (request "GET" "myproxy.example.org" "/v2/" EmptyString
                     {[ "User-Agent" := ["docker/20.10"] ]}))
         "myproxy.example.org" eq_refl))) _).
    vm_compute. discriminate.
Defined.

(** Start-up against a registry that sends the challenge, and against
    one that sends none. *)
Example main_serves :
  main (probe_world proxy_env (unauthorized bearer_challenge))
  = Ok (mkServer ":8080" None (Some gcr)
          (Some ("https://auth.example.com/token", "myorg"))
          (gcr, Some (authHeader "Basic Zm9vOmJhcg=="))
          metadataServerAuth_zero).
Proof. vm_compute. reflexivity. Qed.

Example main_exits :
  main (probe_world proxy_env (Http.mkResponse 200 ∅ "ok"))
  = Fatal ("target registry's token endpoint could not be discovered: "
           +:+ "www-authenticate header not returned from "
           +:+ "https://gcr.io/v2/, cannot locate token endpoint").
Proof. vm_compute. reflexivity. Qed.



(** C7, where the claim fails.  A lifetime of [9223372337] seconds is
    an [int] like any other, but [9223372037] seconds are more
    nanoseconds than a [Duration] holds: the timer is armed with a
    negative duration. *)
Lemma C7_timer_wraps :
  updateToken metadataServerAuth_zero
              (Replied (Token.mkToken "ya29" 9223372337 "Bearer"))
  = Ok (mkMeta "Bearer ya29" 9223372337 (Some (-9223372036709551616)))
  /\ (9223372337 - 300) * 1000000000 = 9223372037000000000.
Proof. split; vm_compute; reflexivity. Qed.

(** C7, amended.  When the lifetime less 300 seconds fits a
    [Duration], that is for a lifetime from [-9223371736] to
    [9223372336] seconds, every successful fetch, the first one of
    [Init] or a later one of the timer loop, stores the token and arms the
    timer with exactly (lifetime - 300) seconds. *)
Theorem C7_timer_armed m toks tok :
  - 9223371736 <= Token.ExpiresIn tok <= 9223372336 ->
  let m' := mkMeta (Token.TokenType tok +:+ " " +:+ Token.AccessToken tok)
                   (Token.ExpiresIn tok)
                   (Some ((Token.ExpiresIn tok - 300) * Time.Second)) in
  updateToken m (Replied tok) = Ok m'
  /\ Init metadataServerAuth_zero (Replied tok) = Ok m'
  /\ updateTokenTimer m (map Replied (toks ++ [tok])%list) = Ok m'.
Proof.
  intros He m'.
  assert (forall m0, updateToken m0 (Replied tok) = Ok m') as H.
  { intros m0. rewrite updateToken_Replied. subst m'. do 3 f_equal.
    apply wrap64_small. unfold Time.Second. lia. }
  split; [apply H|]. split; [apply H|].
  rewrite updateTokenTimer_last. apply H.
Qed.

(** C7 at the lifetime of one hour: the timer is armed with 3300
    seconds. *)
Lemma C7_timer_armed_witness :
  Init metadataServerAuth_zero (Replied (Token.mkToken "ya29" 3600 "Bearer"))
  = Ok (mkMeta "Bearer ya29" 3600 (Some (3300 * Time.Second))).
Proof.
  refine (proj1 (proj2
    (C7_timer_armed metadataServerAuth_zero []
                    (Token.mkToken "ya29" 3600 "Bearer") _))).
  split; vm_compute; discriminate.
Defined.

(** * Further properties of the proxy *)

(** X1.  For every prefix without a dollar sign and every path
    [/v2/<rest>] with a non-empty rest, the director sets the path to
    [/v2/<repoPrefix>/<rest>], keeps the query, sets the scheme to
    [https] and both hosts to the registry host; and the path [/v2/]
    itself is kept, whatever the prefix. *)
Theorem X1_path_rewritten (U : string -> nat) c req rest :
  Strings.has_byte dollar (repoPrefix c) = false ->
  Url.Path (Http.URL req) = "/v2/" +:+ rest ->
  let req' := rewriteRegistryV2URL U c req in
  (rest <> EmptyString ->
   Url.Path (Http.URL req') = "/v2/" +:+ repoPrefix c +:+ "/" +:+ rest)
  /\ (rest = EmptyString -> Url.Path (Http.URL req') = "/v2/")
  /\ Url.RawQuery (Http.URL req') = Url.RawQuery (Http.URL req)
  /\ Url.Scheme (Http.URL req') = "https"
  /\ Url.Host (Http.URL req') = host c
  /\ Http.Host req' = host c.
Proof.
  intros Hd Hp req'.
  destruct (rewriteRegistryV2URL_frame U c req) as (H1 & H2 & H3 & H4 & _).
  repeat split; try assumption.
  - intros Hr. now apply rewriteRegistryV2URL_path.
  - intros ->. now apply rewriteRegistryV2URL_probe.
Qed.

(** X1 at the end-to-end scenario of the specification. *)
Lemma X1_path_rewritten_witness :
  Url.Path
    (Http.URL
       (rewriteRegistryV2URL ascii_names gcr
          (request "GET" "myproxy.example.org"
                   "/v2/library/ubuntu/manifests/latest" EmptyString ∅)))
  = "/v2/" +:+ "myorg" +:+ "/" +:+ "library/ubuntu/manifests/latest".
Proof.
  refine (proj1
    (X1_path_rewritten ascii_names gcr
       (request "GET" "myproxy.example.org"
                "/v2/library/ubuntu/manifests/latest" EmptyString ∅)
       "library/ubuntu/manifests/latest" eq_refl eq_refl) _).
  discriminate.
Defined.

(** X2.  The round tripper forces [Accept] to the single value [*/*],
    leaves the URL, the method and [Host] of the request as the director
    set them, and returns the error of the transport, and no response,
    when the transport fails. *)
Theorem X2_accept_and_transport_error
    (U : string -> nat) (T : Http.Request -> Http.Response + string)
    rrt store req origHost :
  Http.ctxOriginalHost req = Some origHost ->
  let out := outbound rrt store origHost req in
  Http.ReqHeader out !! "Accept" = Some ["*/*"]
  /\ Http.URL out = Http.URL req
  /\ Http.Host out = Http.Host req
  /\ Http.Method out = Http.Method req
  /\ (forall err, T out = inr err -> RoundTrip U T rrt store req = Err err)
  /\ (forall resp, T out = inl resp ->
        RoundTrip U T rrt store req = Ok (updateTokenEndpoint U resp origHost)).
Proof.
  intros Hc out.
  destruct (outbound_frame rrt store origHost req) as (H1 & H2 & H3).
  split; [apply outbound_Accept|]. do 3 (split; [assumption|]).
  rewrite (RoundTrip_forward U T rrt store req origHost Hc). fold out.
  split; intros x ->; reflexivity.
Qed.

(** X2 at a registry that refuses the connection. *)
Lemma X2_accept_and_transport_error_witness :
  RoundTrip ascii_names (fun _ => inr "dial tcp: connection refused")
    (mkRoundtripper None) metadataServerAuth_zero
    (captureHostHeader
       (request "GET" "myproxy.example.org" "/v2/" EmptyString ∅))
  = Err "dial tcp: connection refused".
Proof.
  exact (proj1 (proj2 (proj2 (proj2 (proj2
    (X2_accept_and_transport_error ascii_names
       (fun _ => inr "dial tcp: connection refused")
       (mkRoundtripper None) metadataServerAuth_zero
       (captureHostHeader
          (request "GET" "myproxy.example.org" "/v2/" EmptyString ∅))
       "myproxy.example.org" eq_refl)))))
    "dial tcp: connection refused" eq_refl).
Defined.

(** X3.  A fetch from the metadata server that does not end with a
    token, at start-up or at a refresh, ends the process; the
    authenticator never keeps serving after a failed refresh. *)
Theorem X3_failed_fetch_is_fatal m reply replies :
  (forall tok, reply <> Replied tok) ->
  is_Fatal (updateToken m reply)
  /\ is_Fatal (Init metadataServerAuth_zero reply)
  /\ is_Fatal (updateTokenTimer m (reply :: replies)).
Proof.
  intros H.
  assert (forall m0, is_Fatal (updateToken m0 reply)) as HF
    by (intros m0; now apply updateToken_failed).
  split; [apply HF|]. split; [apply HF|].
  cbn [updateTokenTimer]. specialize (HF m).
  now destruct (updateToken m reply).
Qed.

(** X3 at a refresh that times out. *)
Lemma X3_failed_fetch_is_fatal_witness :
  is_Fatal (updateTokenTimer
              (mkMeta "Bearer ya29" 3600 (Some (3300 * Time.Second)))
              [DoFailed "timeout"]).
Proof.
  refine (proj2 (proj2
    (X3_failed_fetch_is_fatal
       (mkMeta "Bearer ya29" 3600 (Some (3300 * Time.Second)))
       (DoFailed "timeout") [] _))).
  intros tok. discriminate.
Defined.

(** * Start-up *)

Section StartupFacts.

Lemma nonempty_true s : nonempty s = true <-> s <> EmptyString.
Proof.
  unfold nonempty. destruct (String.eqb_spec s EmptyString); simpl; split;
    congruence.
Qed.

Lemma nonempty_false s : nonempty s = false <-> s = EmptyString.
Proof.
  unfold nonempty. destruct (String.eqb_spec s EmptyString); simpl; split;
    congruence.
Qed.

(** Discovery returns an endpoint or an error: the index [1] of the
    submatches is always in range. *)
Lemma discoverTokenService_cases registryHost get :
  (exists tokenEndpoint,
     discoverTokenService registryHost get = Ok tokenEndpoint)
  \/ is_Err (discoverTokenService registryHost get).
Proof.
  unfold discoverTokenService. destruct (get _) as [resp|err]; [|now right].
  destruct (String.eqb _ _); [now right|].
  unfold Regexp.realm_FindStringSubmatch.
  destruct (Regexp.realm_find _) as [[[pre cap] rest]|]; [left; eauto|now right].
Qed.

Lemma updateToken_cases m reply :
  (exists m', updateToken m reply = Ok m') \/ is_Fatal (updateToken m reply).
Proof.
  destruct reply; try (right; exact I). left. rewrite updateToken_Replied. eauto.
Qed.

Lemma getAuthData_cases w auth :
  (exists a store, getAuthData w auth = Ok (a, store))
  \/ is_Fatal (getAuthData w auth).
Proof.
  unfold getAuthData, Init.
  destruct (nonempty (Getenv w "USE_METADATA_SERVER")).
  - destruct (updateToken_cases metadataServerAuth_zero (metadata w))
      as [[m' E]|HF].
    + rewrite E. left. eauto.
    + right. now destruct (updateToken _ _).
  - destruct (nonempty (Getenv w "AUTH_HEADER")); [left; eauto|].
    destruct (nonempty (Getenv w "GOOGLE_APPLICATION_CREDENTIALS"));
      [|left; eauto].
    destruct (ReadFile w _); [left; eauto | right; exact I].
Qed.

End StartupFacts.

(** X4.  When [main] reaches the listener, the three required
    variables are set, the token endpoint was discovered, and the server
    it starts is fixed by the environment: it listens on [:PORT]; the
    registry handler uses [REGISTRY_HOST] and [REPO_PREFIX] and the
    authenticator [getAuthData] chose; the token handler is registered
    exactly when the discovered endpoint is not empty; the browser
    redirect exactly when [DISABLE_BROWSER_REDIRECTS] is empty; and TLS is
    used exactly when both [TLS_CERT] and [TLS_KEY] are set. *)
Theorem X4_startup_contract w srv :
  main w = Ok srv ->
  let reg := mkConfig (Getenv w "REGISTRY_HOST") (Getenv w "REPO_PREFIX") in
  Getenv w "PORT" <> EmptyString
  /\ Getenv w "REGISTRY_HOST" <> EmptyString
  /\ Getenv w "REPO_PREFIX" <> EmptyString
  /\ addr srv = ":" +:+ Getenv w "PORT"
  /\ fst (registryProxy srv) = reg
  /\ getAuthData w None = Ok (snd (registryProxy srv), authStore srv)
  /\ (exists tokenEndpoint,
        discoverTokenService (Getenv w "REGISTRY_HOST") (http_Get w)
        = Ok tokenEndpoint
        /\ tokenProxy srv
           = if nonempty tokenEndpoint
             then Some (tokenEndpoint, Getenv w "REPO_PREFIX") else None)
  /\ browserRedirect srv
     = (if nonempty (Getenv w "DISABLE_BROWSER_REDIRECTS")
        then None else Some reg)
  /\ tls srv
     = (if nonempty (Getenv w "TLS_CERT") && nonempty (Getenv w "TLS_KEY")
        then Some (Getenv w "TLS_CERT", Getenv w "TLS_KEY") else None).
Proof.
  intros H reg. unfold main in H.
  destruct (nonempty (Getenv w "PORT")) eqn:E1; [|discriminate H].
  destruct (nonempty (Getenv w "REGISTRY_HOST")) eqn:E2; [|discriminate H].
  destruct (nonempty (Getenv w "REPO_PREFIX")) eqn:E3; [|discriminate H].
  cbn [negb host] in H.
  destruct (discoverTokenService _ _) as [te| | |] eqn:E4; try discriminate H.
  destruct (getAuthData w None) as [[a store]| | |] eqn:E5; try discriminate H.
  inversion H; subst srv; clear H. cbn [addr registryProxy authStore tokenProxy
    browserRedirect tls fst snd].
  apply nonempty_true in E1, E2, E3.
  repeat split; try assumption.
  - exists te. now split.
  - now destruct (nonempty (Getenv w "DISABLE_BROWSER_REDIRECTS")).
Qed.

(** X4 at a proxy in front of [gcr.io] with a static header. *)
Lemma X4_startup_contract_witness :
  addr (mkServer ":8080" None (Some gcr)
          (Some ("https://auth.example.com/token", "myorg"))
          (gcr, Some (authHeader "Basic Zm9vOmJhcg=="))
          metadataServerAuth_zero)
  = ":" +:+ Getenv (probe_world proxy_env (unauthorized bearer_challenge)) "PORT".
Proof.
  refine (proj1 (proj2 (proj2 (proj2
    (X4_startup_contract
       (probe_world proxy_env (unauthorized bearer_challenge))
       (mkServer ":8080" None (Some gcr)
          (Some ("https://auth.example.com/token", "myorg"))
          (gcr, Some (authHeader "Basic Zm9vOmJhcg=="))
          metadataServerAuth_zero) _))))).
  vm_compute. reflexivity.
Defined.

(** X5.  Start-up never panics and never returns an error to a caller:
    [main] either reaches the listener or exits through [log.Fatal].  It
    exits whenever one of [PORT], [REGISTRY_HOST] and [REPO_PREFIX] is
    empty, whatever the registry would answer.  Discovery itself returns
    an endpoint or an error, for every response. *)
Theorem X5_startup_total w registryHost get :
  ((exists srv, main w = Ok srv) \/ is_Fatal (main w))
  /\ (Getenv w "PORT" = EmptyString
      \/ Getenv w "REGISTRY_HOST" = EmptyString
      \/ Getenv w "REPO_PREFIX" = EmptyString ->
      is_Fatal (main w))
  /\ ((exists tokenEndpoint,
         discoverTokenService registryHost get = Ok tokenEndpoint)
      \/ is_Err (discoverTokenService registryHost get)).
Proof.
  split; [|split].
  - unfold main.
    destruct (nonempty (Getenv w "PORT")); [|right; exact I].
    destruct (nonempty (Getenv w "REGISTRY_HOST")); [|right; exact I].
    destruct (nonempty (Getenv w "REPO_PREFIX")); [|right; exact I].
    cbn [negb host].
    destruct (discoverTokenService_cases (Getenv w "REGISTRY_HOST") (http_Get w))
      as [[te E]|HE].
    + rewrite E.
      destruct (getAuthData_cases w None) as [(a & store & E')|HF].
      * rewrite E'. left. eauto.
      * right. now destruct (getAuthData w None).
    + right. now destruct (discoverTokenService _ _).
  - intros H. unfold main.
    destruct (nonempty (Getenv w "PORT")) eqn:E1; [|exact I].
    destruct (nonempty (Getenv w "REGISTRY_HOST")) eqn:E2; [|exact I].
    destruct (nonempty (Getenv w "REPO_PREFIX")) eqn:E3; [|exact I].
    apply nonempty_true in E1, E2, E3. tauto.
  - apply discoverTokenService_cases.
Qed.

(** * Credentials *)

Section CredentialFacts.

Lemma main_Ok_getAuthData w srv :
  main w = Ok srv ->
  getAuthData w None = Ok (snd (registryProxy srv), authStore srv).
Proof.
  unfold main. intros H.
  destruct (nonempty (Getenv w "PORT")); [|discriminate H].
  destruct (nonempty (Getenv w "REGISTRY_HOST")); [|discriminate H].
  destruct (nonempty (Getenv w "REPO_PREFIX")); [|discriminate H].
  cbn [negb host] in H.
  destruct (discoverTokenService _ _) as [te| | |]; try discriminate H.
  destruct (getAuthData w None) as [[au store]| | |]; try discriminate H.
  now inversion H.
Qed.

(** Induction on a string, three bytes at a time. *)
Lemma string_ind3 (P : string -> Prop) :
  P EmptyString ->
  (forall a, P (String a EmptyString)) ->
  (forall a b, P (String a (String b EmptyString))) ->
  (forall a b c s, P s -> P (String a (String b (String c s)))) ->
  forall s, P s.
Proof.
  intros H0 H1 H2 H3 s.
  assert (P s /\ (forall a, P (String a s))
          /\ (forall a b, P (String a (String b s)))) as [H _].
  { induction s as [|c s (IH0 & IH1 & IH2)]; [now repeat split|].
    split; [apply IH1|]. split; [intros a; apply IH2|].
    intros a b. now apply H3. }
  exact H.
Qed.

Lemma digit_base64 n : base64_byte (Base64.digit n) = true.
Proof.
  unfold Base64.digit. generalize (Z.to_nat (Z.land n 63)). intros k.
  do 64 (destruct k as [|k]; [reflexivity|]). reflexivity.
Qed.

(** [EncodeToString] writes bytes of the base64 alphabet only ... *)
Lemma EncodeToString_bytes src :
  Http.all_bytes base64_byte (Base64.EncodeToString src) = true.
Proof.
  pattern src. apply string_ind3; clear src; intros;
    cbn [Base64.EncodeToString Http.all_bytes];
    rewrite ?digit_base64; try assumption; reflexivity.
Qed.

(** ... four for every three bytes of input, the last group padded. *)
Lemma EncodeToString_length src :
  String.length (Base64.EncodeToString src)
  = (4 * ((String.length src + 2) / 3))%nat.
Proof.
  pattern src. apply string_ind3; clear src; try reflexivity.
  intros a b c src IH.
  cbn [Base64.EncodeToString String.length]. rewrite IH.
  replace (S (S (S (String.length src))) + 2)%nat
    with (String.length src + 2 + 1 * 3)%nat by lia.
  rewrite Nat.div_add by lia. lia.
Qed.

Lemma all_bytes_has_byte p c s :
  Http.all_bytes p s = true -> p c = false -> Strings.has_byte c s = false.
Proof.
  intros Hs Hc. induction s as [|d s IH]; [reflexivity|].
  cbn in Hs |- *. apply andb_true_iff in Hs as [Hd Hs].
  rewrite (IH Hs), orb_false_r.
  destruct (Ascii.eqb_spec d c) as [->|]; [congruence | reflexivity].
Qed.

End CredentialFacts.

(** X6.  Which [Authorization] a served request carries, by the
    environment the proxy started in.  With [USE_METADATA_SERVER] set it
    is the token type and token of the metadata server, whatever the other
    two variables hold; else with [AUTH_HEADER] set it is that value as it
    stands, and the key file is not read; else with
    [GOOGLE_APPLICATION_CREDENTIALS] set it is [Basic] and the base64 text
    of [_json_key:] and the content of the file; with none of the three
    set, the header of the client is forwarded as it came. *)
Theorem X6_credential_precedence w srv origHost req :
  main w = Ok srv ->
  let meta := Getenv w "USE_METADATA_SERVER" in
  let hdr := Getenv w "AUTH_HEADER" in
  let key := Getenv w "GOOGLE_APPLICATION_CREDENTIALS" in
  let sent :=
    Http.ReqHeader
      (outbound (mkRoundtripper (snd (registryProxy srv))) (authStore srv)
                origHost req) !! "Authorization" in
  (meta <> EmptyString ->
   exists tok,
     metadata w = Replied tok
     /\ sent = Some [Token.TokenType tok +:+ " " +:+ Token.AccessToken tok])
  /\ (meta = EmptyString -> hdr <> EmptyString -> sent = Some [hdr])
  /\ (meta = EmptyString -> hdr = EmptyString -> key <> EmptyString ->
      exists b,
        ReadFile w key = inl b
        /\ sent = Some ["Basic " +:+ Base64.EncodeToString ("_json_key:" +:+ b)])
  /\ (meta = EmptyString -> hdr = EmptyString -> key = EmptyString ->
      sent = Http.ReqHeader req !! "Authorization").
Proof.
  intros H meta hdr key sent.
  apply main_Ok_getAuthData in H. subst sent.
  rewrite outbound_Authorization. cbn [auth].
  unfold getAuthData, Init in H. fold meta hdr key in H.
  split; [|split; [|split]].
  - intros Hm. apply nonempty_true in Hm. rewrite Hm in H.
    destruct (metadata w) as [e|e|e body|tok]; try discriminate H.
    exists tok. split; [reflexivity|].
    rewrite updateToken_Replied in H. inversion H as [[Ha Hs]].
    reflexivity.
  - intros Hm Hh. apply nonempty_false in Hm. apply nonempty_true in Hh.
    rewrite Hm, Hh in H. now inversion H.
  - intros Hm Hh Hk. apply nonempty_false in Hm, Hh. apply nonempty_true in Hk.
    rewrite Hm, Hh, Hk in H.
    destruct (ReadFile w key) as [b|err]; [|discriminate H].
    exists b. split; [reflexivity|]. now inversion H.
  - intros Hm Hh Hk. apply nonempty_false in Hm, Hh, Hk.
    rewrite Hm, Hh, Hk in H. now inversion H.
Qed.

(** X6 at a proxy started with [AUTH_HEADER]. *)
Lemma X6_credential_precedence_witness :
  Http.ReqHeader
    (outbound (mkRoundtripper (Some (authHeader "Basic Zm9vOmJhcg==")))
              metadataServerAuth_zero "myproxy.example.org"
              (request "GET" "myproxy.example.org" "/v2/" EmptyString
                       {[ "Authorization" := ["Bearer client"] ]}))
    !! "Authorization"
  = Some ["Basic Zm9vOmJhcg=="].
Proof.
  refine (proj1 (proj2
    (X6_credential_precedence
       (probe_world proxy_env (unauthorized bearer_challenge))
       (mkServer ":8080" None (Some gcr)
          (Some ("https://auth.example.com/token", "myorg"))
          (gcr, Some (authHeader "Basic Zm9vOmJhcg=="))
          metadataServerAuth_zero)
       "myproxy.example.org"
       (request "GET" "myproxy.example.org" "/v2/" EmptyString
                {[ "Authorization" := ["Bearer client"] ]}) _)) eq_refl _).
  - vm_compute. reflexivity.
  - vm_compute. discriminate.
Defined.

(** X7.  The credential built from a key file is [Basic] followed by
    bytes of the base64 alphabet only, four for every three bytes of
    [_json_key:] and the file: whatever the file holds, line ends
    included, no byte of it reaches the header as it is. *)
Theorem X7_key_file_header w auth b :
  Getenv w "USE_METADATA_SERVER" = EmptyString ->
  Getenv w "AUTH_HEADER" = EmptyString ->
  Getenv w "GOOGLE_APPLICATION_CREDENTIALS" <> EmptyString ->
  ReadFile w (Getenv w "GOOGLE_APPLICATION_CREDENTIALS") = inl b ->
  exists e,
    getAuthData w auth
    = Ok (Some (authHeader ("Basic " +:+ e)), metadataServerAuth_zero)
    /\ Http.all_bytes base64_byte e = true
    /\ String.length e = (4 * ((String.length b + 12) / 3))%nat
    /\ Strings.has_byte LF ("Basic " +:+ e) = false
    /\ Strings.has_byte CR ("Basic " +:+ e) = false.
Proof.
  intros Hm Hh Hk Hb. apply nonempty_false in Hm, Hh. apply nonempty_true in Hk.
  exists (Base64.EncodeToString ("_json_key:" +:+ b)).
  split; [|split; [|split; [|split]]].
  - unfold getAuthData. now rewrite Hm, Hh, Hk, Hb.
  - apply EncodeToString_bytes.
  - rewrite EncodeToString_length, length_append.
    cbn [String.length]. do 2 f_equal. lia.
  - rewrite has_byte_app.
    rewrite (all_bytes_has_byte base64_byte LF _ (EncodeToString_bytes _)
               eq_refl).
    reflexivity.
  - rewrite has_byte_app.
    rewrite (all_bytes_has_byte base64_byte CR _ (EncodeToString_bytes _)
               eq_refl).
    reflexivity.
Qed.

(** X7 at a key file that ends with a line feed. *)
Lemma X7_key_file_header_witness :
  let w := mkWorld (fun name =>
                      if String.eqb name "GOOGLE_APPLICATION_CREDENTIALS"
                      then "/secrets/key.json" else EmptyString)
                   (fun _ => inr "unreachable") (DoFailed "none")
                   (fun _ => inl ("{}" +:+ String LF EmptyString)) in
  exists e,
    getAuthData w None
    = Ok (Some (authHeader ("Basic " +:+ e)), metadataServerAuth_zero)
    /\ Http.all_bytes base64_byte e = true
    /\ String.length e = (4 * ((3 + 12) / 3))%nat
    /\ Strings.has_byte LF ("Basic " +:+ e) = false
    /\ Strings.has_byte CR ("Basic " +:+ e) = false.
Proof.
  refine (X7_key_file_header
            (mkWorld (fun name =>
                        if String.eqb name "GOOGLE_APPLICATION_CREDENTIALS"
                        then "/secrets/key.json" else EmptyString)
                     (fun _ => inr "unreachable") (DoFailed "none")
                     (fun _ => inl ("{}" +:+ String LF EmptyString)))
            None ("{}" +:+ String LF EmptyString) eq_refl eq_refl _ eq_refl).
  vm_compute. discriminate.
Defined.

(** * The registry handler behind the middleware *)

(** X8.  The handler of [/v2/] never panics on the context value, and
    it keeps two hosts apart: the request it forwards has the registry
    host in [Host] and in its URL, while the realm of the response is
    rewritten with the [Host] the client sent. *)
Theorem X8_original_host_kept
    (U : string -> nat) (T : Http.Request -> Http.Response + string)
    (proxy_header : Http.Request -> Http.Header) cfg auth store req :
  let directed := rewriteRegistryV2URL U cfg (captureHostHeader req) in
  let out :=
    outbound (mkRoundtripper auth) store (Http.Host req)
             (Http.set_ReqHeader (proxy_header directed) directed) in
  serveRegistry U T proxy_header cfg auth store req
  = match T out with
    | inl resp => Ok (updateTokenEndpoint U resp (Http.Host req))
    | inr err => Err err
    end
  /\ Http.Host out = host cfg
  /\ Url.Host (Http.URL out) = host cfg
  /\ Url.Scheme (Http.URL out) = "https"
  /\ Url.RawQuery (Http.URL out) = Url.RawQuery (Http.URL req).
Proof.
  intros directed out.
  destruct (rewriteRegistryV2URL_frame U cfg (captureHostHeader req))
    as (H1 & H2 & H3 & H4 & _ & _ & _ & H8).
  fold directed in H1, H2, H3, H4, H8.
  split.
  - unfold serveRegistry, registryAPIProxy. fold directed.
    apply RoundTrip_forward. cbn [Http.ctxOriginalHost Http.set_ReqHeader].
    rewrite H8. reflexivity.
  - subst out. unfold outbound.
    cbn [Http.Host Http.URL Http.set_ReqHeader].
    now rewrite H1, H2, H3, H4.
Qed.

Section ThroughTheProxy.

Variable U : string -> nat.

Local Abbreviation cur h := ("https://" +:+ h +:+ "/_token") (only parsing).
Local Abbreviation F v h :=
  (Regexp.realm_ReplaceAllString U v ("realm=" +:+ quoted (cur h)))
  (only parsing).

(** The first match of a rewritten value is where the first match of
    the value was, and its capture is the token endpoint of the proxy. *)
Lemma realm_find_rewritten v h pre cap rest :
  Strings.has_byte dollar h = false ->
  Strings.has_byte dquote h = false ->
  Strings.has_byte LF h = false ->
  Regexp.realm_find v = Some (pre, cap, rest) ->
  Regexp.realm_find (F v h) = Some (pre, cur h, F rest h).
Proof.
  intros Hd Hq Hl E.
  rewrite (rewrite_eq U v h Hd), E, realm_text_open.
  rewrite (realm_find_stable _ _ _ _ (cur h +:+ String dquote (F rest h)) E).
  rewrite (realm_find_self h _ Hq Hl). cbn [shift].
  now rewrite append_nil_r.
Qed.

End ThroughTheProxy.

(** X9.  A client that runs discovery against the proxy finds the
    proxy: when the challenge of the registry holds a realm and the
    original host holds no quote, line feed or dollar sign, discovery on
    the rewritten response returns [https://<originalHost>/_token]. *)
Theorem X9_discovery_through_proxy
    (U : string -> nat) registryHost resp h pre cap rest :
  Strings.has_byte dollar h = false ->
  Strings.has_byte dquote h = false ->
  Strings.has_byte LF h = false ->
  first_realm (Http.Get (Http.RespHeader resp) "www-authenticate")
              pre cap rest ->
  discoverTokenService registryHost
    (fun _ => inl (updateTokenEndpoint U resp h))
  = Ok ("https://" +:+ h +:+ "/_token").
Proof.
  intros Hd Hq Hl Hf. apply realm_find_first in Hf.
  assert (Http.Get (Http.RespHeader resp) "www-authenticate" <> EmptyString)
    as Hne.
  { intros E. rewrite E in Hf. discriminate Hf. }
  eapply discoverTokenService_found; [reflexivity|].
  rewrite (updateTokenEndpoint_value U resp h Hne).
  cbn [Http.RespHeader Http.set_RespHeader]. rewrite Header_Get_Set.
  exact (realm_find_rewritten U _ h pre cap rest Hd Hq Hl Hf).
Qed.

(** X9 at the example of the specification. *)
Lemma X9_discovery_through_proxy_witness :
  discoverTokenService "myproxy.example.org"
    (fun _ => inl (updateTokenEndpoint ascii_names
                     (unauthorized bearer_challenge) "myproxy.example.org"))
  = Ok "https://myproxy.example.org/_token".
Proof.
  refine (X9_discovery_through_proxy ascii_names "myproxy.example.org"
            (unauthorized bearer_challenge) "myproxy.example.org"
            "Bearer " "https://auth.example.com/token"
            (",service=" +:+ quoted "r") eq_refl eq_refl eq_refl _).
  apply realm_find_first. reflexivity.
Defined.

(** X10.  Only the first value of [WWW-Authenticate] counts for the
    rewriter.  When it is not empty, the header of the response becomes
    the single rewritten first value and every further value (a second
    challenge) is dropped; when it is empty, the response is returned as
    it is, further values included. *)
Theorem X10_further_challenges_dropped (U : string -> nat) resp h v vs :
  Http.RespHeader resp !! "Www-Authenticate" = Some (v :: vs) ->
  (v <> EmptyString ->
   Http.RespHeader (updateTokenEndpoint U resp h) !! "Www-Authenticate"
   = Some [Regexp.realm_ReplaceAllString U v
             ("realm=" +:+ quoted ("https://" +:+ h +:+ "/_token"))])
  /\ (v = EmptyString -> updateTokenEndpoint U resp h = resp).
Proof.
  intros Hv.
  assert (Http.Get (Http.RespHeader resp) "www-authenticate" = v) as Hg.
  { unfold Http.Get. rewrite canon_www_authenticate. now rewrite Hv. }
  split.
  - intros Hne. rewrite updateTokenEndpoint_value by now rewrite Hg.
    cbn [Http.RespHeader Http.set_RespHeader]. rewrite Hg.
    unfold Http.Set_. rewrite canon_www_authenticate. apply lookup_insert_eq.
  - intros ->. now apply updateTokenEndpoint_absent.
Qed.

(** X10 at a registry that offers [Bearer] and then [Basic]. *)
Lemma X10_further_challenges_dropped_witness :
  Http.RespHeader
    (updateTokenEndpoint ascii_names
       (Http.mkResponse 401
          {[ "Www-Authenticate" :=
               [bearer_challenge; "Basic realm=" +:+ quoted "registry"] ]}
          EmptyString)
       "myproxy.example.org") !! "Www-Authenticate"
  = Some ["Bearer realm=" +:+ quoted "https://myproxy.example.org/_token"
          +:+ ",service=" +:+ quoted "r"].
Proof.
  refine (proj1
    (X10_further_challenges_dropped ascii_names
       (Http.mkResponse 401
          {[ "Www-Authenticate" :=
               [bearer_challenge; "Basic realm=" +:+ quoted "registry"] ]}
          EmptyString)
       "myproxy.example.org" bearer_challenge
       ["Basic realm=" +:+ quoted "registry"] _) _).
  - vm_compute. reflexivity.
  - discriminate.
Defined.

(** X11.  Discovery, too, reads the first value only: when the first
    value of [WWW-Authenticate] holds no realm, discovery fails, even if a
    further value holds one. *)
Theorem X11_discovery_first_value registryHost get resp v vs :
  get ("https://" +:+ registryHost +:+ "/v2/") = inl resp ->
  Http.RespHeader resp !! "Www-Authenticate" = Some (v :: vs) ->
  (no_realm v -> is_Err (discoverTokenService registryHost get))
  /\ (forall pre cap rest,
        first_realm v pre cap rest ->
        discoverTokenService registryHost get = Ok cap).
Proof.
  intros Hg Hv.
  assert (Http.Get (Http.RespHeader resp) "www-authenticate" = v) as Hget.
  { unfold Http.Get. rewrite canon_www_authenticate. now rewrite Hv. }
  split.
  - intros Hn. apply (discoverTokenService_missing _ _ _ Hg).
    rewrite Hget. now apply realm_find_no.
  - intros pre cap rest Hf. apply realm_find_first in Hf.
    rewrite <- Hget in Hf. exact (discoverTokenService_found _ _ _ _ _ _ Hg Hf).
Qed.

(** X11 at a registry that offers [Basic] without a realm first. *)
Lemma X11_discovery_first_value_witness :
  is_Err (discoverTokenService "gcr.io"
            (fun _ => inl (Http.mkResponse 401
                             {[ "Www-Authenticate" :=
                                  ["Negotiate"; bearer_challenge] ]}
                             EmptyString))).
Proof.
  refine (proj1
    (X11_discovery_first_value "gcr.io"
       (fun _ => inl (Http.mkResponse 401
                        {[ "Www-Authenticate" :=
                             ["Negotiate"; bearer_challenge] ]}
                        EmptyString))
       (Http.mkResponse 401
          {[ "Www-Authenticate" := ["Negotiate"; bearer_challenge] ]}
          EmptyString)
       "Negotiate" [bearer_challenge] eq_refl _) _).
  - vm_compute. reflexivity.
  - apply realm_find_no. reflexivity.
Defined.

(** * The round tripper and the authenticator *)

(** X12.  The round tripper writes three headers and no other: every
    header but [Authorization], [User-Agent] and [Accept] reaches the
    transport as the request held it. *)
Theorem X12_other_headers_kept rrt store origHost req k :
  k <> "Authorization" -> k <> "User-Agent" -> k <> "Accept" ->
  Http.ReqHeader (outbound rrt store origHost req) !! k
  = Http.ReqHeader req !! k.
Proof.
  intros H1 H2 H3. unfold outbound, Http.Set_.
  cbn [Http.ReqHeader Http.set_ReqHeader].
  rewrite canon_accept, canon_user_agent, canon_authorization.
  rewrite lookup_insert_ne by congruence.
  destruct (nonempty _).
  - rewrite lookup_insert_ne by congruence.
    destruct (auth rrt); [now rewrite lookup_insert_ne by congruence|reflexivity].
  - destruct (auth rrt); [now rewrite lookup_insert_ne by congruence|reflexivity].
Qed.

(** X12 at the range header of a blob request. *)
Lemma X12_other_headers_kept_witness :
  Http.ReqHeader
    (outbound (mkRoundtripper (Some (authHeader "Basic Zm9vOmJhcg==")))
       metadataServerAuth_zero "myproxy.example.org"
       (request "GET" "myproxy.example.org" "/v2/" EmptyString
                {[ "Range" := ["bytes=0-1023"] ]})) !! "Range"
  = ({[ "Range" := ["bytes=0-1023"] ]} : Http.Header) !! "Range".
Proof.
  refine (X12_other_headers_kept
            (mkRoundtripper (Some (authHeader "Basic Zm9vOmJhcg==")))
            metadataServerAuth_zero "myproxy.example.org"
            (request "GET" "myproxy.example.org" "/v2/" EmptyString
                     {[ "Range" := ["bytes=0-1023"] ]})
            "Range" _ _ _); discriminate.
Defined.

Section AuthInvariant.

Lemma updateToken_fetched m reply m' :
  updateToken m reply = Ok m' -> fetched m'.
Proof.
  destruct reply as [e|e|e body|tok]; try discriminate.
  rewrite updateToken_Replied. intros H. inversion H. now exists tok.
Qed.

Lemma updateTokenTimer_fetched replies : forall m m',
  fetched m -> updateTokenTimer m replies = Ok m' -> fetched m'.
Proof.
  induction replies as [|reply replies IH]; intros m m' Hm H.
  - cbn in H. now inversion H; subst.
  - cbn [updateTokenTimer] in H.
    destruct (updateToken m reply) as [m1| | |] eqn:E; try discriminate H.
    apply (IH m1 m'); [|exact H]. now apply updateToken_fetched in E.
Qed.

End AuthInvariant.

(** X13.  After a successful fetch the metadata authenticator gives
    the new token, whatever it held before: a request forwarded after a
    refresh carries the token type and the token of the last reply, and
    the header of a static authenticator does not depend on the store. *)
Theorem X13_refresh_is_seen m tok origHost req b :
  exists m',
    updateToken m (Replied tok) = Ok m'
    /\ AuthHeader metadataServer m'
       = Token.TokenType tok +:+ " " +:+ Token.AccessToken tok
    /\ Http.ReqHeader
         (outbound (mkRoundtripper (Some metadataServer)) m' origHost req)
         !! "Authorization"
       = Some [Token.TokenType tok +:+ " " +:+ Token.AccessToken tok]
    /\ Http.ReqHeader
         (outbound (mkRoundtripper (Some (authHeader b))) m' origHost req)
         !! "Authorization"
       = Http.ReqHeader
           (outbound (mkRoundtripper (Some (authHeader b))) m origHost req)
           !! "Authorization".
Proof.
  eexists. split; [apply updateToken_Replied|].
  split; [reflexivity|].
  rewrite !outbound_Authorization. now cbn [auth AuthHeader authToken].
Qed.

(** X14.  An invariant of the metadata object: once [Init] succeeded,
    in every state the refresh loop reaches the timer is armed, and the
    token, the lifetime and the timer come from one and the same reply of
    the metadata server. *)
Theorem X14_metadata_invariant reply replies m m' :
  Init metadataServerAuth_zero reply = Ok m ->
  updateTokenTimer m replies = Ok m' ->
  fetched m /\ fetched m' /\ (exists d, t m' = Some d).
Proof.
  intros Hi Hr. unfold Init in Hi.
  pose proof (updateToken_fetched _ _ _ Hi) as Hm.
  pose proof (updateTokenTimer_fetched replies m m' Hm Hr) as Hm'.
  split; [exact Hm|]. split; [exact Hm'|].
  destruct Hm' as [tok ->]. cbn [t]. eauto.
Qed.

(** X14 at a start-up and two refreshes. *)
Lemma X14_metadata_invariant_witness :
  fetched (mkMeta "Bearer first" 3600 (Some (3300 * Time.Second)))
  /\ fetched (mkMeta "Bearer third" 1800 (Some (1500 * Time.Second)))
  /\ (exists d,
        t (mkMeta "Bearer third" 1800 (Some (1500 * Time.Second))) = Some d).
Proof.
  exact (X14_metadata_invariant
           (Replied (Token.mkToken "first" 3600 "Bearer"))
           [Replied (Token.mkToken "second" 3600 "Bearer");
            Replied (Token.mkToken "third" 1800 "Bearer")]
           (mkMeta "Bearer first" 3600 (Some (3300 * Time.Second)))
           (mkMeta "Bearer third" 1800 (Some (1500 * Time.Second)))
           eq_refl eq_refl).
Defined.

(** * The two directors together *)

Section Directors.

Variable U : string -> nat.
Variable url_Parse : string -> option Url.URL.



Lemma append_cancel_l (p x y : string) : p +:+ x = p +:+ y -> x = y.
Proof.
  induction p as [|c p IH]; simpl; intros H; [exact H|].
  inversion H. now apply IH.
Qed.

(** The three ways the registry director treats a path, for a prefix
    without a dollar sign. *)
Lemma rewriteRegistryV2URL_cases c req :
  Strings.has_byte dollar (repoPrefix c) = false ->
  let p := Url.Path (Http.URL req) in
  let p' := Url.Path (Http.URL (rewriteRegistryV2URL U c req)) in
  (p = "/v2/" /\ p' = "/v2/")
  \/ (exists rest, rest <> EmptyString /\ p = "/v2/" +:+ rest
                   /\ p' = "/v2/" +:+ repoPrefix c +:+ "/" +:+ rest)
  \/ (Strings.CutPrefix p "/v2/" = None /\ p' = p).
Proof.
  intros Hd p p'.
  destruct (Strings.CutPrefix p "/v2/") as [rest|] eqn:E.
  - apply CutPrefix_Some in E. destruct rest as [|a rest].
    + left. split; [exact E|]. now apply rewriteRegistryV2URL_probe.
    + right. left. exists (String a rest).
      split; [discriminate|]. split; [exact E|].
      apply rewriteRegistryV2URL_path; [exact Hd|exact E|discriminate].
  - right. right. split; [reflexivity|].
    subst p p'. unfold rewriteRegistryV2URL.
    cbn [Http.URL Http.set_URL Http.set_Host Url.Path Url.set_Host
         Url.set_Scheme].
    destruct (negb _); [|reflexivity].
    cbn [Url.Path Url.set_Path]. unfold Regexp.re_ReplaceAllString.
    now rewrite E.
Qed.

End Directors.



(** X16.  With a prefix that holds no dollar sign the registry
    director loses nothing of the path: two requests that are forwarded
    with the same path came with the same path.  A path that does not
    start with [/v2/] is forwarded as it came. *)
Theorem X16_path_rewriting_injective (U : string -> nat) c req1 req2 :
  Strings.has_byte dollar (repoPrefix c) = false ->
  Url.Path (Http.URL (rewriteRegistryV2URL U c req1))
  = Url.Path (Http.URL (rewriteRegistryV2URL U c req2)) ->
  Url.Path (Http.URL req1) = Url.Path (Http.URL req2)
  /\ (Strings.CutPrefix (Url.Path (Http.URL req1)) "/v2/" = None ->
      Url.Path (Http.URL (rewriteRegistryV2URL U c req1))
      = Url.Path (Http.URL req1)).
Proof.
  intros Hd H.
  pose proof (rewriteRegistryV2URL_cases U c req1 Hd) as C1.
  pose proof (rewriteRegistryV2URL_cases U c req2 Hd) as C2.
  cbv zeta in C1, C2.
  assert (forall rest,
            "/v2/" <> "/v2/" +:+ repoPrefix c +:+ "/" +:+ rest) as Hprobe.
  { intros rest E. apply (f_equal String.length) in E.
    rewrite !length_append in E. simpl in E. lia. }
  split.
  - destruct C1 as [[P1 Q1]|[(r1 & N1 & P1 & Q1)|[P1 Q1]]];
    destruct C2 as [[P2 Q2]|[(r2 & N2 & P2 & Q2)|[P2 Q2]]];
    rewrite Q1, Q2 in H.
    + congruence.
    + now apply Hprobe in H.
    + rewrite <- H in P2. discriminate P2.
    + symmetry in H. now apply Hprobe in H.
    + rewrite P1, P2. f_equal.
      rewrite <- !append_assoc in H.
      exact (append_cancel_l _ _ _ H).
    + exfalso. rewrite <- H in P2.
      exact (CutPrefix_None _ _ P2 _ eq_refl).
    + rewrite H in P1. discriminate P1.
    + exfalso. rewrite H in P1.
      exact (CutPrefix_None _ _ P1 _ eq_refl).
    + exact H.
  - intros E.
    destruct C1 as [[P1 Q1]|[(r1 & N1 & P1 & Q1)|[P1 Q1]]].
    + rewrite P1 in E. discriminate E.
    + rewrite P1, CutPrefix_app in E. discriminate E.
    + exact Q1.
Qed.

(** X16 at two requests for one manifest that differ in their host
    and their query. *)
Lemma X16_path_rewriting_injective_witness :
  let req1 := request "GET" "myproxy.example.org"
                "/v2/library/ubuntu/manifests/latest" EmptyString ∅ in
  let req2 := request "HEAD" "other.example.org"
                "/v2/library/ubuntu/manifests/latest" "n=10" ∅ in
  Url.Path (Http.URL req1) = Url.Path (Http.URL req2)
  /\ (Strings.CutPrefix (Url.Path (Http.URL req1)) "/v2/" = None ->
      Url.Path (Http.URL (rewriteRegistryV2URL ascii_names gcr req1))
      = Url.Path (Http.URL req1)).
Proof.
  exact (X16_path_rewriting_injective ascii_names gcr
           (request "GET" "myproxy.example.org"
                    "/v2/library/ubuntu/manifests/latest" EmptyString ∅)
           (request "HEAD" "other.example.org"
                    "/v2/library/ubuntu/manifests/latest" "n=10" ∅)
           eq_refl eq_refl).
Defined.
